(** * react-scan: the notification event tracker

    A shallow embedding of
    [packages/scan/src/core/notifications/event-tracking.ts]:
    the toolbar event store with its overlap scan, the long-pipeline
    sampler, the timing orchestrator and its teardown.

    Conventions of the model.
    - A JavaScript [number] that holds a timestamp or a duration is an
      integer of [Z] (milliseconds).  The source only adds, subtracts and
      compares these numbers, and the model does the same, exactly; the
      rounding of a floating-point sum is outside it.
    - The module-level variables of the file are the fields of one record,
      [World], and every function of the file is a function on worlds.
    - A callback handed to the module from outside (a store listener) is
      opaque: it is a name, and calling it leaves an entry in the world's
      trace.  Callbacks do not re-enter the module while they run. *)

From Stdlib Require Import ZArith List Bool Lia.
From stdpp Require Import base gmap strings list.

Local Open Scope Z_scope.

(** ** Data model *)

(** [TimeoutStage] is declared in [./performance]; this file reads its
    [blockingTimeStart] and calls its [stopListeningForRenders]. *)
Record TimeoutStage := { blockingTimeStart : Z }.

(** [PerformanceEntryChannelEvent] is declared in [./performance]; this file
    reads its [kind] only. *)
Record PerformanceEntryChannelEvent := { entryKind : string }.

(** [FiberRenders] is declared in [./performance]: the accumulator the
    render listener fills, an object used as a map and opaque here. *)
Abbreviation FiberRenders := (gmap string nat).

Record FinalInteraction := {
  detailedTiming : TimeoutStage;
  latency : Z;
  completedAt : Z
}.

(** [meta] of an [InteractionEvent]: [{ ...finalInteraction, kind }]. *)
Record InteractionMeta := {
  metaInteraction : FinalInteraction;
  metaKind : string
}.

(** [meta] of a [LongRenderPipeline]. *)
Record LongRenderMeta := {
  metaLatency : Z;
  metaFiberRenders : FiberRenders;
  metaFps : nat
}.

Inductive EventKind := interaction | long_render.

(** [SlowdownEvent = (InteractionEvent | LongRenderPipeline) & { id }];
    the interval [startAt], [endAt] sits in [data] for both variants. *)
Inductive SlowdownEvent :=
| InteractionEvent (i : string) (s e : Z) (m : InteractionMeta)
| LongRenderPipeline (i : string) (s e : Z) (m : LongRenderMeta).

Definition kind (ev : SlowdownEvent) : EventKind :=
  match ev with
  | InteractionEvent _ _ _ _ => interaction
  | LongRenderPipeline _ _ _ _ => long_render
  end.

Definition id (ev : SlowdownEvent) : string :=
  match ev with
  | InteractionEvent i _ _ _ | LongRenderPipeline i _ _ _ => i
  end.

Definition startAt (ev : SlowdownEvent) : Z :=
  match ev with
  | InteractionEvent _ s _ _ | LongRenderPipeline _ s _ _ => s
  end.

Definition endAt (ev : SlowdownEvent) : Z :=
  match ev with
  | InteractionEvent _ _ e _ | LongRenderPipeline _ _ e _ => e
  end.

(** The record of a completed interaction that the performance-entry feed
    hands over is declared in [./performance]; this file only stores it, so
    it is a name here. *)
Inductive CompletedInteraction := completedInteraction (n : nat).

(** [interactionStatus], lines 40-45. *)
Inductive InteractionStatus :=
| no_interaction
| started (startedAt : Z)
| completed (startedAt endedAt : Z).

(** A listener of the toolbar event store: a function compared by
    reference, hence a name. *)
Abbreviation Listener := nat.

(** What the module does to the outside, in program order. *)
Inductive Effect :=
| AddEventCalled (ev : SlowdownEvent)
    (* actions.addEvent(ev) entered *)
| ListenerCalled (l : Listener) (ev : SlowdownEvent)
    (* listener(event), line 164 *)
| StoreSet (evs : list SlowdownEvent)
    (* set(() => ({ state: { events } })), line 243 and line 258 *)
| ListenForRenders
    (* listenForRenders(accumulatedFiberRendersOverTask), line 298 *)
| RendersUnsubscribed
    (* unSub?.(), line 338 *)
| StopListeningForRenders
    (* finalInteraction.detailedTiming.stopListeningForRenders(), line 374 *).

(** ** Collaborators that are not in this file *)

(** Modelled from the spec: [BoundedArray] of [./performance-utils] is
    missing.  A buffer with a fixed capacity; building one from a sequence
    keeps the last [capacity] items in order. *)
Record BoundedArray (A : Type) := {
  capacity : nat;
  items : list A
}.
Arguments capacity {A} _.
Arguments items {A} _.

(** Modelled from the spec: [new BoundedArray(C)], the empty buffer. *)
Definition newBoundedArray {A} (C : nat) : BoundedArray A :=
  {| capacity := C; items := [] |}.

(** Modelled from the spec: [BoundedArray.fromArray(items, C)]. *)
Definition fromArray {A} (xs : list A) (C : nat) : BoundedArray A :=
  {| capacity := C; items := drop (length xs - C)%nat xs |}.

(** ** The state of the module *)

(** [toolbarEventStore]: [state.events] and the closure's [listeners], a
    JavaScript [Set], which iterates in insertion order and holds a value
    once. *)
Record ToolbarEventStore := {
  events : list SlowdownEvent;
  listeners : list Listener
}.

(** One round of [measure]: what the pending callbacks close over. *)
Record Cycle := {
  startOrigin : Z;
  startTime : Z
}.

(** The sampler: the module variables [isTaskDirty],
    [framesDrawnInTheLastSecond] and [accumulatedFiberRendersOverTask], and
    the callbacks [measure] has handed to the browser.  [rafHandle] names
    the last [requestAnimationFrame] callback and [timeoutHandle] the last
    [setTimeout] callback; one of them at most is still pending. *)
Record Sampler := {
  isTaskDirty : bool;
  framesDrawnInTheLastSecond : list Z;
  accumulatedFiberRendersOverTask : option FiberRenders;
  pendingFrame : option Cycle;
  pendingTimeout : option Cycle
}.

(** Modelled from the spec: the subscribe functions of [./performance]
    ([setupPerformancePublisher], [setupDetailedPointerTimingListener],
    [listenForPerformanceEntryInteractions]) are missing.  Each returns an
    unsubscribe function; a collaborator runs the callback it was given
    while the subscription stands and not after.  [visibilityListeners]
    counts the handlers that [document.addEventListener] has taken. *)
Record Subscriptions := {
  performancePublisher : bool;
  detailedPointerTiming : bool;
  detailedKeyboardTiming : bool;
  performanceEntryInteractions : bool;
  visibilityListeners : nat
}.

Record World := {
  store : ToolbarEventStore;
  sampler : Sampler;
  subscriptions : Subscriptions;
  interactionStatus : InteractionStatus;
  channels : gmap string (BoundedArray PerformanceEntryChannelEvent);
  interactionStore : BoundedArray CompletedInteraction;
  trace : list Effect
}.

Definition with_store (s : ToolbarEventStore) (w : World) : World :=
  {| store := s; sampler := sampler w; subscriptions := subscriptions w;
     interactionStatus := interactionStatus w; channels := channels w;
     interactionStore := interactionStore w; trace := trace w |}.

Definition with_sampler (s : Sampler) (w : World) : World :=
  {| store := store w; sampler := s; subscriptions := subscriptions w;
     interactionStatus := interactionStatus w; channels := channels w;
     interactionStore := interactionStore w; trace := trace w |}.

Definition with_subscriptions (s : Subscriptions) (w : World) : World :=
  {| store := store w; sampler := sampler w; subscriptions := s;
     interactionStatus := interactionStatus w; channels := channels w;
     interactionStore := interactionStore w; trace := trace w |}.

Definition with_channels
    (c : gmap string (BoundedArray PerformanceEntryChannelEvent))
    (w : World) : World :=
  {| store := store w; sampler := sampler w; subscriptions := subscriptions w;
     interactionStatus := interactionStatus w; channels := c;
     interactionStore := interactionStore w; trace := trace w |}.

Definition with_interactionStore
    (b : BoundedArray CompletedInteraction) (w : World) : World :=
  {| store := store w; sampler := sampler w; subscriptions := subscriptions w;
     interactionStatus := interactionStatus w; channels := channels w;
     interactionStore := b; trace := trace w |}.

(** Append to the trace. *)
Definition tell (effs : list Effect) (w : World) : World :=
  {| store := store w; sampler := sampler w; subscriptions := subscriptions w;
     interactionStatus := interactionStatus w; channels := channels w;
     interactionStore := interactionStore w; trace := trace w ++ effs |}.

(** ** The toolbar event store, lines 152-267 *)

(** The three boundary checks of the [find] callback, lines 188-222, for a
    long render [ls..le] and the event [es..ee]. *)
Definition boundaryChecks (ls le es ee : Z) : bool :=
  if (ls <=? es) && (le <=? ee) && (le >=? es) then true
  else if (es <=? ls) && (ee >=? ls) then true
  else if (ls <=? es) && (le >=? ee) then true
  else false.

(** The callback of [events.find], lines 174-223; a bare [return] is
    [undefined], which [find] reads as false. *)
Definition overlapCallback (longRenderEvent event : SlowdownEvent) : bool :=
  match kind event with
  | long_render => false
  | interaction =>
      if String.eqb (id event) (id longRenderEvent) then false
      else boundaryChecks (startAt longRenderEvent) (endAt longRenderEvent)
                          (startAt event) (endAt event)
  end.

(** [applyOverlapCheckToLongRenderEvent], lines 168-228; [onOverlap] acts on
    the set [toRemove]. *)
Definition applyOverlapCheckToLongRenderEvent
    (events : list SlowdownEvent) (longRenderEvent : SlowdownEvent)
    (onOverlap : SlowdownEvent → gset string → gset string)
    (toRemove : gset string) : gset string :=
  match find (overlapCallback longRenderEvent) events with
  | Some overlapsWith => onOverlap overlapsWith toRemove
  | None => toRemove
  end.

(** The loop of lines 232-237 over [rest], a suffix of [events].  [None] is
    the [return] of line 233, which leaves [addEvent] altogether. *)
Fixpoint scanEvents (events rest : list SlowdownEvent)
    (toRemove : gset string) : option (gset string) :=
  match rest with
  | [] => Some toRemove
  | event :: rest' =>
      match kind event with
      | interaction => None
      | long_render =>
          scanEvents events rest'
            (applyOverlapCheckToLongRenderEvent events event
               (λ _ acc, {[ id event ]} ∪ acc) toRemove)
      end
  end.

(** [actions.addEvent], lines 162-248. *)
Definition addEvent (event : SlowdownEvent) (w : World) : World :=
  let w1 :=
    tell (AddEventCalled event
            :: map (λ l, ListenerCalled l event) (listeners (store w))) w in
  let events' := events (store w1) ++ [event] in
  match scanEvents events' events' ∅ with
  | None => w1
  | Some toRemove =>
      let withRemovedEvents :=
        filter (λ ev, id ev ∉ toRemove) events' in
      tell [StoreSet withRemovedEvents]
        (with_store {| events := withRemovedEvents;
                       listeners := listeners (store w1) |} w1)
  end.

(** [actions.addListener], lines 250-251: [listeners.add(listener)]. *)
Definition addListener (listener : Listener) (w : World) : World :=
  with_store
    {| events := events (store w);
       listeners :=
         if bool_decide (listener ∈ listeners (store w))
         then listeners (store w)
         else listeners (store w) ++ [listener] |} w.

(** The function [addListener] returns, lines 252-254:
    [listeners.delete(listener)]. *)
Definition unsubscribe (listener : Listener) (w : World) : World :=
  with_store
    {| events := events (store w);
       listeners := filter (λ l, l ≠ listener) (listeners (store w)) |} w.

(** [actions.clear], lines 257-263. *)
Definition clear (w : World) : World :=
  tell [StoreSet []]
    (with_store {| events := []; listeners := listeners (store w) |} w).

(** ** The long-pipeline sampler, lines 276-350 *)

Definition set_isTaskDirty (b : bool) (w : World) : World :=
  with_sampler
    {| isTaskDirty := b;
       framesDrawnInTheLastSecond := framesDrawnInTheLastSecond (sampler w);
       accumulatedFiberRendersOverTask :=
         accumulatedFiberRendersOverTask (sampler w);
       pendingFrame := pendingFrame (sampler w);
       pendingTimeout := pendingTimeout (sampler w) |} w.

Definition set_framesDrawnInTheLastSecond (fs : list Z) (w : World) : World :=
  with_sampler
    {| isTaskDirty := isTaskDirty (sampler w);
       framesDrawnInTheLastSecond := fs;
       accumulatedFiberRendersOverTask :=
         accumulatedFiberRendersOverTask (sampler w);
       pendingFrame := pendingFrame (sampler w);
       pendingTimeout := pendingTimeout (sampler w) |} w.

Definition set_accumulatedFiberRendersOverTask
    (r : option FiberRenders) (w : World) : World :=
  with_sampler
    {| isTaskDirty := isTaskDirty (sampler w);
       framesDrawnInTheLastSecond := framesDrawnInTheLastSecond (sampler w);
       accumulatedFiberRendersOverTask := r;
       pendingFrame := pendingFrame (sampler w);
       pendingTimeout := pendingTimeout (sampler w) |} w.

Definition set_pending (f t : option Cycle) (w : World) : World :=
  with_sampler
    {| isTaskDirty := isTaskDirty (sampler w);
       framesDrawnInTheLastSecond := framesDrawnInTheLastSecond (sampler w);
       accumulatedFiberRendersOverTask :=
         accumulatedFiberRendersOverTask (sampler w);
       pendingFrame := f;
       pendingTimeout := t |} w.

(** The handler [startDirtyTaskTracking] installs, lines 280-285. *)
Definition onVisibilityChange (visible : bool) (w : World) : World :=
  if visible then w else set_isTaskDirty true w.

(** [startDirtyTaskTracking], lines 279-286: one more handler on the
    document, and nothing that would take it off again. *)
Definition startDirtyTaskTracking (w : World) : World :=
  with_subscriptions
    {| performancePublisher := performancePublisher (subscriptions w);
       detailedPointerTiming := detailedPointerTiming (subscriptions w);
       detailedKeyboardTiming := detailedKeyboardTiming (subscriptions w);
       performanceEntryInteractions :=
         performanceEntryInteractions (subscriptions w);
       visibilityListeners := S (visibilityListeners (subscriptions w)) |} w.

(** [measure], lines 294-301, up to the call of [requestAnimationFrame];
    [origin] and [now] are [performance.timeOrigin] and [performance.now()]
    at that moment. *)
Definition measure (origin now : Z) (w : World) : World :=
  let w1 := set_accumulatedFiberRendersOverTask (Some ∅) w in
  let w2 := tell [ListenForRenders] w1 in
  set_pending (Some {| startOrigin := origin; startTime := now |})
              (pendingTimeout (sampler w2)) w2.

(** The callback of [requestAnimationFrame], lines 301-303 and 340: it
    only arms the timeout. *)
Definition frameCallback (c : Cycle) (w : World) : World :=
  set_pending (pendingFrame (sampler w)) (Some c) w.

(** Lines 307-314: push, filter, count. *)
Definition sampleFrames (endNow : Z) (frames : list Z) : nat * list Z :=
  let pushed := frames ++ [endNow] in
  let framesInTheLastSecond :=
    filter (λ frameAt, endNow - frameAt ≤ 1000) pushed in
  (length framesInTheLastSecond, framesInTheLastSecond).

(** The callback of [setTimeout], lines 304-339.  [endOrigin] and [endNow]
    are the clock when it runs, [newId] is what
    [not_globally_unique_generateId()] returns, and [origin'], [now'] are the
    clock as the next [measure] reads it. *)
Definition timeoutCallback (c : Cycle) (endOrigin endNow : Z) (newId : string)
    (origin' now' : Z) (w : World) : World :=
  let duration := endNow - startTime c in
  let '(fps, framesInTheLastSecond) :=
    sampleFrames endNow (framesDrawnInTheLastSecond (sampler w)) in
  let w1 := set_framesDrawnInTheLastSecond framesInTheLastSecond w in
  let w2 :=
    if (100 <? duration) && negb (isTaskDirty (sampler w1)) then
      let endAt := endOrigin + endNow in
      let startAt := startTime c + startOrigin c in
      addEvent
        (LongRenderPipeline newId startAt endAt
           {| metaLatency := duration;
              metaFiberRenders :=
                default ∅ (accumulatedFiberRendersOverTask (sampler w1));
              metaFps := fps |}) w1
    else w1 in
  let w3 := set_isTaskDirty false w2 in
  let w4 := tell [RendersUnsubscribed] w3 in
  measure origin' now' w4.

(** [startLongPipelineTracking], lines 290-344. *)
Definition startLongPipelineTracking (origin now : Z) (w : World) : World :=
  measure origin now w.

(** The function [startLongPipelineTracking] returns, lines 346-349:
    [cancelAnimationFrame(rafHandle); clearTimeout(timeoutHandle)]. *)
Definition cancelLongPipelineTracking (w : World) : World :=
  set_pending None None w.

(** The browser runs the pending animation-frame callback. *)
Definition fireFrame (w : World) : World :=
  match pendingFrame (sampler w) with
  | Some c => frameCallback c (set_pending None (pendingTimeout (sampler w)) w)
  | None => w
  end.

(** The browser runs the pending timeout callback. *)
Definition fireTimeout (endOrigin endNow : Z) (newId : string)
    (origin' now' : Z) (w : World) : World :=
  match pendingTimeout (sampler w) with
  | Some c =>
      timeoutCallback c endOrigin endNow newId origin' now'
        (set_pending (pendingFrame (sampler w)) None w)
  | None => w
  end.

(** ** The timing orchestrator, lines 351-416 *)

Section Orchestrator.

(** [MAX_CHANNEL_SIZE] of [./performance-store] and [MAX_INTERACTION_BATCH]
    of [./interaction-store]: constants declared outside this file. *)
Variable MAX_CHANNEL_SIZE : nat.
Variable MAX_INTERACTION_BATCH : nat.

(** Modelled from the spec: [performanceEntryChannels.getChannelState] of
    [./performance-store] is missing.  It returns the channel's current
    buffer, or an empty one if the name is unseen. *)
Definition getChannelState (name : string) (w : World)
    : BoundedArray PerformanceEntryChannelEvent :=
  default (newBoundedArray MAX_CHANNEL_SIZE) (channels w !! name).

(** Modelled from the spec: [performanceEntryChannels.updateChannelState] of
    [./performance-store] is missing.  It replaces a channel's buffer with
    [fn(currentBuffer)]. *)
Definition updateChannelState (name : string)
    (fn : BoundedArray PerformanceEntryChannelEvent →
          BoundedArray PerformanceEntryChannelEvent)
    (w : World) : World :=
  with_channels (<[ name := fn (getChannelState name w) ]> (channels w)) w.

(** Modelled from the spec: the platform performance publisher of
    [./performance] is missing.  It feeds raw entries into channels; a push
    appends and evicts the oldest items beyond the capacity. *)
Definition publish (name : string) (entry : PerformanceEntryChannelEvent)
    (w : World) : World :=
  updateChannelState name
    (λ b, fromArray (items b ++ [entry]) (capacity b)) w.

(** [onComplete], lines 356-385.  It is [async] without an [await], so its
    body runs in one go.  [newId] is what [not_globally_unique_generateId()]
    returns; [now] and [origin] are [performance.now()] and
    [performance.timeOrigin]. *)
Definition onComplete (_ : string) (finalInteraction : FinalInteraction)
    (event : PerformanceEntryChannelEvent)
    (newId : string) (now origin : Z) (w : World) : World :=
  let w1 :=
    addEvent
      (InteractionEvent newId
         (blockingTimeStart (detailedTiming finalInteraction))
         (now + origin)
         {| metaInteraction := finalInteraction;
            metaKind := entryKind event |}) w in
  let existingCompletedInteractions := getChannelState "recording" w1 in
  let w2 := tell [StopListeningForRenders] w1 in
  if negb (length (items existingCompletedInteractions) =? 0)%nat then
    updateChannelState "recording"
      (λ _, newBoundedArray MAX_CHANNEL_SIZE) w2
  else w2.

(** The callback given to [listenForPerformanceEntryInteractions],
    lines 400-407. *)
Definition onEntryInteraction (completedInteraction : CompletedInteraction)
    (w : World) : World :=
  with_interactionStore
    (fromArray (items (interactionStore w) ++ [completedInteraction])
       MAX_INTERACTION_BATCH) w.

(** [startTimingTracking], lines 351-409.  The function that
    [startLongPipelineTracking] returns is dropped on line 354. *)
Definition startTimingTracking (origin now : Z) (w : World) : World :=
  let w1 :=
    with_subscriptions
      {| performancePublisher := true;
         detailedPointerTiming := detailedPointerTiming (subscriptions w);
         detailedKeyboardTiming := detailedKeyboardTiming (subscriptions w);
         performanceEntryInteractions :=
           performanceEntryInteractions (subscriptions w);
         visibilityListeners := visibilityListeners (subscriptions w) |} w in
  let w2 := startDirtyTaskTracking w1 in
  let w3 := startLongPipelineTracking origin now w2 in
  with_subscriptions
    {| performancePublisher := performancePublisher (subscriptions w3);
       detailedPointerTiming := true;
       detailedKeyboardTiming := true;
       performanceEntryInteractions := true;
       visibilityListeners := visibilityListeners (subscriptions w3) |} w3.

(** The function [startTimingTracking] returns, lines 410-415: the four
    unsubscribe functions it kept.  Each collaborator's unsubscribe undoes
    its subscription. *)
Definition stopTimingTracking (w : World) : World :=
  with_subscriptions
    {| performancePublisher := false;
       detailedPointerTiming := false;
       detailedKeyboardTiming := false;
       performanceEntryInteractions := false;
       visibilityListeners := visibilityListeners (subscriptions w) |} w.

(** ** The module in its environment *)

Inductive TimingKind := pointer | keyboard.

(** What can happen to the module once it is loaded: calls by consumers of
    the store, callbacks run by the browser and by the collaborators, and
    the teardown. *)
Inductive Action :=
| CallAddListener (l : Listener)
| CallUnsubscribe (l : Listener)
| CallClear
| VisibilityChange (visible : bool)
| RendersAccumulated (r : FiberRenders)
| AnimationFrame
| TimerFired (endOrigin endNow : Z) (newId : string) (origin' now' : Z)
| DetailedTimingComplete (k : TimingKind) (fi : FinalInteraction)
    (event : PerformanceEntryChannelEvent) (newId : string) (now origin : Z)
| EntryInteraction (ci : CompletedInteraction)
| Publish (name : string) (entry : PerformanceEntryChannelEvent)
| CallStop.

Definition timingSubscribed (k : TimingKind) (w : World) : bool :=
  match k with
  | pointer => detailedPointerTiming (subscriptions w)
  | keyboard => detailedKeyboardTiming (subscriptions w)
  end.

Definition timingName (k : TimingKind) : string :=
  match k with pointer => "pointer" | keyboard => "keyboard" end.

(** One action.  A callback runs only while it is subscribed or pending;
    an action that finds it neither leaves the world as it is. *)
Definition step (w : World) (a : Action) : World :=
  match a with
  | CallAddListener l => addListener l w
  | CallUnsubscribe l => unsubscribe l w
  | CallClear => clear w
  | VisibilityChange visible =>
      if (0 <? visibilityListeners (subscriptions w))%nat
      then onVisibilityChange visible w else w
  | RendersAccumulated r =>
      match accumulatedFiberRendersOverTask (sampler w) with
      | Some _ => set_accumulatedFiberRendersOverTask (Some r) w
      | None => w
      end
  | AnimationFrame => fireFrame w
  | TimerFired endOrigin endNow newId origin' now' =>
      fireTimeout endOrigin endNow newId origin' now' w
  | DetailedTimingComplete k fi event newId now origin =>
      if timingSubscribed k w
      then onComplete (timingName k) fi event newId now origin w else w
  | EntryInteraction ci =>
      if performanceEntryInteractions (subscriptions w)
      then onEntryInteraction ci w else w
  | Publish name entry =>
      if performancePublisher (subscriptions w)
      then publish name entry w else w
  | CallStop => stopTimingTracking w
  end.

Definition run (w : World) (actions : list Action) : World :=
  fold_left step actions w.

(** The module as loaded: every module variable at its initialiser, the
    channel registry without a channel and the interaction store empty. *)
Definition initialWorld : World :=
  {| store := {| events := []; listeners := [] |};
     sampler :=
       {| isTaskDirty := false;
          framesDrawnInTheLastSecond := [];
          accumulatedFiberRendersOverTask := None;
          pendingFrame := None;
          pendingTimeout := None |};
     subscriptions :=
       {| performancePublisher := false;
          detailedPointerTiming := false;
          detailedKeyboardTiming := false;
          performanceEntryInteractions := false;
          visibilityListeners := 0 |};
     interactionStatus := no_interaction;
     channels := ∅;
     interactionStore := newBoundedArray MAX_INTERACTION_BATCH;
     trace := [] |}.

End Orchestrator.

(** ** The listener arrays, lines 20-72 *)

(** [listenForProfile], lines 28-32: [profileListeners.push(listener)] on
    the module's array, here the argument. *)
Definition listenForProfile (listener : Listener)
    (profileListeners : list Listener) : list Listener :=
  profileListeners ++ [listener].

(** The function [listenForProfile] returns, lines 33-37. *)
Definition stopListeningForProfile (listener : Listener)
    (profileListeners : list Listener) : list Listener :=
  filter (λ existingListener, existingListener ≠ listener) profileListeners.

Module interactionStatusStore.

(** [NewInteractionStoreState], lines 47-56. *)
Record NewInteractionStoreState := {
  startAt : Z;
  endAt : Z
}.

(** The object of lines 58-72. *)
Record t := {
  state : option NewInteractionStoreState;
  listeners : list Listener
}.

(** As initialised: [state: null], [listeners: []]. *)
Definition initial : t := {| state := None; listeners := [] |}.

(** [addListener], lines 64-65. *)
Definition addListener (cb : Listener) (s : t) : t :=
  {| state := state s; listeners := listeners s ++ [cb] |}.

(** The function [addListener] returns, lines 66-69. *)
Definition unsubscribe (cb : Listener) (s : t) : t :=
  {| state := state s; listeners := filter (λ l, l ≠ cb) (listeners s) |}.

End interactionStatusStore.

(** ** The debug event store, lines 116-150 *)

Module debugEventStore.

Section Events.

(** [addEvent] takes [any]; the store only keeps what it is given. *)
Variable DebugEvent : Type.

(** [actions.addEvent], lines 135-141, on [state.events]. *)
Definition addEvent (event : DebugEvent) (events : list DebugEvent)
    : list DebugEvent :=
  events ++ [event].

(** [actions.clear], lines 142-148. *)
Definition clear (events : list DebugEvent) : list DebugEvent := [].

End Events.

Arguments addEvent {DebugEvent} _ _.
Arguments clear {DebugEvent} _.

End debugEventStore.

(** ** Vocabulary of the statements *)

(** The events handed to [addEvent] along a trace. *)
Definition emitted (tr : list Effect) : list SlowdownEvent :=
  omap (λ eff, match eff with AddEventCalled ev => Some ev | _ => None end) tr.

(** What a call has added to the trace of [w] by the time the world is
    [w']. *)
Definition since (w w' : World) : list Effect :=
  drop (length (trace w)) (trace w').

(** The listeners called along a trace. *)
Definition listenersCalled (tr : list Effect) : list Listener :=
  omap (λ eff, match eff with ListenerCalled l _ => Some l | _ => None end) tr.

(** The test of line 233. *)
Definition isInteraction (ev : SlowdownEvent) : bool :=
  match kind ev with interaction => true | long_render => false end.

(** [addEvent] over a sequence of events, first to last. *)
Definition addEvents (evs : list SlowdownEvent) (w : World) : World :=
  fold_left (λ w ev, addEvent ev w) evs w.

(** What the spec calls an overlap: [s1 <= e2 && s2 <= e1]. *)
Definition canonicalOverlap (s1 e1 s2 e2 : Z) : bool :=
  (s1 <=? e2) && (s2 <=? e1).

(** The event the timeout callback hands to [addEvent], lines 320-333. *)
Definition longRenderOf (c : Cycle) (endOrigin endNow : Z) (newId : string)
    (w : World) : SlowdownEvent :=
  LongRenderPipeline newId (startTime c + startOrigin c) (endOrigin + endNow)
    {| metaLatency := endNow - startTime c;
       metaFiberRenders :=
         default ∅ (accumulatedFiberRendersOverTask (sampler w));
       metaFps :=
         (sampleFrames endNow (framesDrawnInTheLastSecond (sampler w))).1 |}.

(** The event [onComplete] hands to [addEvent], lines 361-369. *)
Definition interactionOf (finalInteraction : FinalInteraction)
    (event : PerformanceEntryChannelEvent) (newId : string) (now origin : Z)
    : SlowdownEvent :=
  InteractionEvent newId
    (blockingTimeStart (detailedTiming finalInteraction)) (now + origin)
    {| metaInteraction := finalInteraction; metaKind := entryKind event |}.

(** Every buffer of the channel registry has the capacity
    [MAX_CHANNEL_SIZE]. *)
Definition channelsSized (MAX_CHANNEL_SIZE : nat) (w : World) : Prop :=
  ∀ name b, channels w !! name = Some b → capacity b = MAX_CHANNEL_SIZE.

(** A world that differs from [w] in [interactionStatus] alone: the module
    has no function that builds one. *)
Definition worldWithStatus (status : InteractionStatus) (w : World) : World :=
  {| store := store w; sampler := sampler w; subscriptions := subscriptions w;
     interactionStatus := status; channels := channels w;
     interactionStore := interactionStore w; trace := trace w |}.

(** The callbacks the browser has pending for the sampler. *)
Definition pendingCallbacks (w : World) : nat :=
  (match pendingFrame (sampler w) with Some _ => 1 | None => 0 end
   + match pendingTimeout (sampler w) with Some _ => 1 | None => 0 end)%nat.


Definition isTimerFired (a : Action) : bool :=
  match a with TimerFired _ _ _ _ _ => true | _ => false end.

(** An action of the browser on the sampler's callbacks. *)
Definition isSamplerAction (a : Action) : bool :=
  match a with AnimationFrame | TimerFired _ _ _ _ _ => true | _ => false end.

(** Non-decreasing timestamps. *)
Fixpoint nonDecreasing (ts : list Z) : Prop :=
  match ts with
  | [] => True
  | t :: ts' => (∀ t', t' ∈ ts' → t ≤ t') ∧ nonDecreasing ts'
  end.

(** ** Sample values *)

Definition sampleLongRenderMeta : LongRenderMeta :=
  {| metaLatency := 500; metaFiberRenders := ∅; metaFps := 1 |}.

Definition sampleFinalInteraction : FinalInteraction :=
  {| detailedTiming := {| blockingTimeStart := 200 |};
     latency := 100;
     completedAt := 300 |}.

Definition sampleEntry : PerformanceEntryChannelEvent :=
  {| entryKind := "interaction" |}.

(** [long-render{id:"L1", 0..500}] and [interaction{id:"I1", 200..300}]. *)
Definition L1 : SlowdownEvent :=
  LongRenderPipeline "L1" 0 500 sampleLongRenderMeta.

Definition I1 : SlowdownEvent :=
  InteractionEvent "I1" 200 300
    {| metaInteraction := sampleFinalInteraction;
       metaKind := entryKind sampleEntry |}.

(** The module started at time 0, with [MAX_CHANNEL_SIZE] 50 and
    [MAX_INTERACTION_BATCH] 25 for the constants. *)
Definition startedWorld : World := startTimingTracking 0 0 (initialWorld 25).

(** * Properties *)

(** ** Reading a world *)

Lemma store_tell effs w : store (tell effs w) = store w.
Proof. reflexivity. Qed.

Lemma trace_tell effs w : trace (tell effs w) = trace w ++ effs.
Proof. reflexivity. Qed.

Lemma since_app w w' effs : trace w' = trace w ++ effs → since w w' = effs.
Proof. intros H. unfold since. rewrite H. apply drop_app_length. Qed.

(** ** The overlap scan *)

Lemma find_overlap_long_renders lr evs :
  existsb isInteraction evs = false →
  find (overlapCallback lr) evs = None.
Proof.
  induction evs as [|ev evs IH]; simpl; [done|].
  intros [Hev Hevs]%orb_false_elim.
  unfold overlapCallback at 1. unfold isInteraction in Hev.
  destruct (kind ev); [discriminate|]. auto.
Qed.

(** Without an interaction in sight the loop marks nothing. *)
Lemma scanEvents_long_renders evs rest acc :
  existsb isInteraction evs = false →
  existsb isInteraction rest = false →
  scanEvents evs rest acc = Some acc.
Proof.
  intros Hevs. revert acc.
  induction rest as [|ev rest IH]; intros acc; simpl; [done|].
  intros [Hev Hrest]%orb_false_elim. unfold isInteraction in Hev.
  destruct (kind ev); [discriminate|].
  unfold applyOverlapCheckToLongRenderEvent.
  rewrite find_overlap_long_renders by done. auto.
Qed.

(** With an interaction among the events still to visit the loop returns. *)
Lemma scanEvents_interaction evs rest acc :
  existsb isInteraction rest = true →
  scanEvents evs rest acc = None.
Proof.
  revert acc. induction rest as [|ev rest IH]; intros acc; simpl; [done|].
  unfold isInteraction at 1. destruct (kind ev); [done|]. simpl. auto.
Qed.

Lemma filter_not_in_empty (toRemove : gset string)
    (evs : list SlowdownEvent) :
  toRemove = ∅ → filter (λ ev, id ev ∉ toRemove) evs = evs.
Proof.
  intros ->. induction evs as [|ev evs IH]; [done|].
  rewrite filter_cons_True by apply not_elem_of_empty. by rewrite IH.
Qed.

(** The visible set after [addEvent]: untouched when the old events or the
    new one hold an interaction, extended by the new event otherwise. *)
Lemma addEvent_events event w :
  events (store (addEvent event w)) =
    if existsb isInteraction (events (store w) ++ [event])
    then events (store w)
    else events (store w) ++ [event].
Proof.
  unfold addEvent. rewrite store_tell.
  destruct (existsb isInteraction (events (store w) ++ [event])) eqn:E.
  - by rewrite scanEvents_interaction.
  - rewrite scanEvents_long_renders by done. simpl.
    by apply filter_not_in_empty.
Qed.

Lemma addEvent_listeners event w :
  listeners (store (addEvent event w)) = listeners (store w).
Proof.
  unfold addEvent. rewrite store_tell.
  by destruct (scanEvents _ _ _).
Qed.

(** The trace of [addEvent]: the call, then every listener in the order of
    the set, then the [set] of the store unless line 233 returned. *)
Lemma addEvent_trace event w :
  trace (addEvent event w) =
    trace w
    ++ AddEventCalled event
       :: map (λ l, ListenerCalled l event) (listeners (store w))
    ++ (if existsb isInteraction (events (store w) ++ [event])
        then []
        else [StoreSet (events (store w) ++ [event])]).
Proof.
  unfold addEvent. rewrite store_tell.
  destruct (existsb isInteraction (events (store w) ++ [event])) eqn:E.
  - rewrite scanEvents_interaction by done.
    rewrite trace_tell. by rewrite app_nil_r.
  - rewrite scanEvents_long_renders by done.
    rewrite !trace_tell. simpl. rewrite filter_not_in_empty by done.
    by rewrite <- app_assoc.
Qed.

(** ** The claims on the store *)

(** C1 (the code departs from it): on a store without events,
    [addEvent] of a long render over 0..500 and then of an interaction over
    200..300 leaves the long render as the only visible event; the
    interaction is not committed, since the loop returns on line 233 when it
    reaches it. *)
Theorem addEvent_long_render_then_interaction w i1 m1 i2 m2 :
  events (store w) = [] →
  let L1 := LongRenderPipeline i1 0 500 m1 in
  let I1 := InteractionEvent i2 200 300 m2 in
  events (store (addEvent I1 (addEvent L1 w))) = [L1]
  ∧ L1 ∈ events (store (addEvent I1 (addEvent L1 w)))
  ∧ I1 ∉ events (store (addEvent I1 (addEvent L1 w))).
Proof.
  intros Hw L1 I1.
  assert (H : events (store (addEvent I1 (addEvent L1 w))) = [L1]).
  { rewrite !addEvent_events, Hw. reflexivity. }
  rewrite H. split; [done|]. split; [by apply list_elem_of_singleton|].
  intros Hin%list_elem_of_singleton. discriminate.
Qed.

(** C2: for intervals with [startAt <= endAt], the three boundary checks of
    the overlap scan agree with the canonical test [s1 <= e2 && s2 <= e1],
    and so does the callback of the scan on an interaction other than the
    long render itself; 0..100 and 100..200 overlap, 0..10 and 11..20 do
    not. *)
Theorem boundaryChecks_canonical :
  (∀ s1 e1 s2 e2 : Z,
     s1 ≤ e1 → s2 ≤ e2 →
     boundaryChecks s1 e1 s2 e2 = canonicalOverlap s1 e1 s2 e2)
  ∧ (∀ longRenderEvent event : SlowdownEvent,
       kind event = interaction → id event ≠ id longRenderEvent →
       startAt longRenderEvent ≤ endAt longRenderEvent →
       startAt event ≤ endAt event →
       overlapCallback longRenderEvent event =
         canonicalOverlap (startAt longRenderEvent) (endAt longRenderEvent)
                          (startAt event) (endAt event))
  ∧ boundaryChecks 0 100 100 200 = true
  ∧ boundaryChecks 0 10 11 20 = false.
Proof.
  assert (H : ∀ s1 e1 s2 e2 : Z, s1 ≤ e1 → s2 ≤ e2 →
              boundaryChecks s1 e1 s2 e2 = canonicalOverlap s1 e1 s2 e2).
  { intros s1 e1 s2 e2 H1 H2. unfold boundaryChecks, canonicalOverlap.
    rewrite !Z.geb_leb.
    destruct (s1 <=? s2) eqn:A, (e1 <=? e2) eqn:B, (s2 <=? e1) eqn:C,
             (s2 <=? s1) eqn:D, (s1 <=? e2) eqn:E, (e2 <=? e1) eqn:F;
      simpl; try reflexivity; exfalso;
      rewrite ?Z.leb_le, ?Z.leb_gt in *; lia. }
  split; [exact H|]. split; [|split; reflexivity].
  intros lr ev Hk Hid Hlr Hev. unfold overlapCallback. rewrite Hk.
  destruct (String.eqb_spec (id ev) (id lr)); [done|]. by apply H.
Qed.

Lemma boundaryChecks_canonical_witness :
  0 ≤ 100 ∧ 100 ≤ 200 ∧
  boundaryChecks 0 100 100 200 = canonicalOverlap 0 100 100 200.
Proof.
  split; [lia|]. split; [lia|].
  apply (proj1 boundaryChecks_canonical 0 100 100 200); lia.
Defined.

Lemma addEvent_keeps x event w :
  x ∈ events (store w) → x ∈ events (store (addEvent event w)).
Proof.
  rewrite addEvent_events.
  destruct (existsb _ _); [done|]. intros Hx. apply elem_of_app. by left.
Qed.

Lemma addEvents_keeps x evs w :
  x ∈ events (store w) → x ∈ events (store (addEvents evs w)).
Proof.
  revert w. induction evs as [|ev evs IH]; intros w Hx; [done|].
  simpl. apply IH. by apply addEvent_keeps.
Qed.

(** C4: whatever sequence of events is handed to [addEvent], an interaction
    of the visible set is still in it afterwards; an event that has left
    the visible set is a long render. *)
Theorem addEvents_keeps_interactions w (evs : list SlowdownEvent) x :
  x ∈ events (store w) →
  (kind x = interaction → x ∈ events (store (addEvents evs w)))
  ∧ (x ∉ events (store (addEvents evs w)) → kind x = long_render).
Proof.
  intros Hx. split.
  - intros _. by apply addEvents_keeps.
  - intros Hout. destruct Hout. by apply addEvents_keeps.
Qed.

(** ** Listeners *)

Lemma since_addEvent event w :
  since w (addEvent event w) =
    AddEventCalled event
    :: map (λ l, ListenerCalled l event) (listeners (store w))
    ++ (if existsb isInteraction (events (store w) ++ [event])
        then []
        else [StoreSet (events (store w) ++ [event])]).
Proof. apply since_app, addEvent_trace. Qed.

Lemma listenersCalled_app tr1 tr2 :
  listenersCalled (tr1 ++ tr2) = listenersCalled tr1 ++ listenersCalled tr2.
Proof. apply omap_app. Qed.

Lemma listenersCalled_map event (ls : list Listener) :
  listenersCalled (map (λ l, ListenerCalled l event) ls) = ls.
Proof.
  unfold listenersCalled.
  induction ls as [|l ls IH]; [done|]. cbn. by f_equal.
Qed.

Lemma emitted_app tr1 tr2 : emitted (tr1 ++ tr2) = emitted tr1 ++ emitted tr2.
Proof. apply omap_app. Qed.

Lemma emitted_map event (ls : list Listener) :
  emitted (map (λ l, ListenerCalled l event) ls) = [].
Proof. unfold emitted. by induction ls. Qed.

(** The listeners [addEvent] calls are the registered ones, in order. *)
Lemma listenersCalled_addEvent event w :
  listenersCalled (since w (addEvent event w)) = listeners (store w).
Proof.
  rewrite since_addEvent.
  change (AddEventCalled event :: ?t) with ([AddEventCalled event] ++ t).
  rewrite !listenersCalled_app, listenersCalled_map.
  destruct (existsb _ _); simpl; by rewrite app_nil_r.
Qed.

Lemma emitted_addEvent event w :
  emitted (since w (addEvent event w)) = [event].
Proof.
  rewrite since_addEvent.
  change (AddEventCalled event :: ?t) with ([AddEventCalled event] ++ t).
  rewrite !emitted_app, emitted_map.
  by destruct (existsb _ _).
Qed.

Lemma count_occ_set (ls : list Listener) l :
  NoDup ls →
  count_occ Nat.eq_dec ls l = if bool_decide (l ∈ ls) then 1%nat else 0%nat.
Proof.
  intros Hls. case_bool_decide as Hl.
  - apply NoDup_ListNoDup in Hls.
    apply (proj1 (NoDup_count_occ' Nat.eq_dec ls) Hls).
    by apply list_elem_of_In.
  - apply count_occ_not_In. by rewrite <- list_elem_of_In.
Qed.

(** C6: [addEvent] calls every registered listener with the event, once
    each, before the store's [set]; it does so whether or not the event ends
    up in the visible set. *)
Theorem addEvent_calls_listeners_first event w :
  NoDup (listeners (store w)) →
  ∃ commit,
    since w (addEvent event w) =
      AddEventCalled event
      :: map (λ l, ListenerCalled l event) (listeners (store w)) ++ commit
    ∧ (commit = [] ∧ events (store (addEvent event w)) = events (store w)
       ∨ commit = [StoreSet (events (store (addEvent event w)))])
    ∧ ∀ l, count_occ Nat.eq_dec
             (listenersCalled (since w (addEvent event w))) l =
           if bool_decide (l ∈ listeners (store w)) then 1%nat else 0%nat.
Proof.
  intros Hset. eexists. split; [apply since_addEvent|]. split.
  - rewrite addEvent_events. destruct (existsb _ _); auto.
  - intros l. rewrite listenersCalled_addEvent. by apply count_occ_set.
Qed.

Lemma filter_idemp (l : Listener) (ls : list Listener) :
  filter (λ l', l' ≠ l) (filter (λ l', l' ≠ l) ls) = filter (λ l', l' ≠ l) ls.
Proof.
  induction ls as [|a ls IH]; [done|].
  destruct (decide (a ≠ l)).
  - rewrite (filter_cons_True _ a ls) by done.
    rewrite filter_cons_True by done. by rewrite IH.
  - by rewrite (filter_cons_False _ a ls) by done.
Qed.

Lemma addListener_listeners l w :
  listeners (store (addListener l w)) =
    if bool_decide (l ∈ listeners (store w))
    then listeners (store w) else listeners (store w) ++ [l].
Proof. reflexivity. Qed.

Lemma addListener_elem l w : l ∈ listeners (store (addListener l w)).
Proof.
  rewrite addListener_listeners. case_bool_decide; [done|].
  apply elem_of_app. right. by apply list_elem_of_singleton.
Qed.

Lemma addListener_NoDup l w :
  NoDup (listeners (store w)) → NoDup (listeners (store (addListener l w))).
Proof.
  intros Hset. rewrite addListener_listeners. case_bool_decide; [done|].
  apply NoDup_app. split; [done|]. split; [|apply NoDup_singleton].
  by intros x Hx ->%list_elem_of_singleton.
Qed.

Lemma unsubscribe_NoDup l w :
  NoDup (listeners (store w)) → NoDup (listeners (store (unsubscribe l w))).
Proof. intros Hset. by apply NoDup_filter. Qed.

(** C10: adding a listener that is already registered changes nothing, so
    [addEvent] calls it once; the unsubscribe function takes that listener
    off and no other, and a second call of it changes nothing. *)
Theorem addListener_twice_unsubscribe_twice l w :
  NoDup (listeners (store w)) →
  let w1 := addListener l w in
  let w2 := addListener l w1 in
  w2 = w1
  ∧ count_occ Nat.eq_dec (listeners (store w2)) l = 1%nat
  ∧ (∀ event,
       count_occ Nat.eq_dec
         (listenersCalled (since w2 (addEvent event w2))) l = 1%nat)
  ∧ (l ∉ listeners (store (unsubscribe l w2)))
  ∧ (∀ l', l' ≠ l →
       (l' ∈ listeners (store (unsubscribe l w2)) ↔ l' ∈ listeners (store w)))
  ∧ unsubscribe l (unsubscribe l w2) = unsubscribe l w2.
Proof.
  intros Hset w1 w2.
  assert (H21 : w2 = w1).
  { unfold w2, addListener at 1. unfold with_store.
    rewrite bool_decide_eq_true_2 by apply addListener_elem.
    by destruct w1 as [[] ? ? ? ? ? ?]. }
  assert (Hc : count_occ Nat.eq_dec (listeners (store w2)) l = 1%nat).
  { rewrite H21, count_occ_set by by apply addListener_NoDup.
    by rewrite bool_decide_eq_true_2 by apply addListener_elem. }
  split; [done|]. split; [done|]. split; [|split; [|split]].
  - intros event. by rewrite listenersCalled_addEvent.
  - simpl. rewrite list_elem_of_filter. tauto.
  - intros l' Hne. rewrite H21. simpl. rewrite list_elem_of_filter.
    case_bool_decide; [tauto|].
    rewrite elem_of_app, list_elem_of_singleton. tauto.
  - unfold unsubscribe, with_store. simpl. by rewrite filter_idemp.
Qed.

(** ** The sampler *)

(** The timeout callback, step by step. *)
Lemma timeoutCallback_eq c endOrigin endNow newId origin' now' w :
  timeoutCallback c endOrigin endNow newId origin' now' w =
    let w1 :=
      set_framesDrawnInTheLastSecond
        (sampleFrames endNow (framesDrawnInTheLastSecond (sampler w))).2 w in
    let w2 :=
      if (100 <? endNow - startTime c) && negb (isTaskDirty (sampler w))
      then addEvent (longRenderOf c endOrigin endNow newId w) w1 else w1 in
    measure origin' now'
      (tell [RendersUnsubscribed] (set_isTaskDirty false w2)).
Proof. reflexivity. Qed.

Lemma trace_timeoutCallback c endOrigin endNow newId origin' now' w :
  trace (timeoutCallback c endOrigin endNow newId origin' now' w) =
    trace w
    ++ (if (100 <? endNow - startTime c) && negb (isTaskDirty (sampler w))
        then since
               (set_framesDrawnInTheLastSecond
                  (sampleFrames endNow
                     (framesDrawnInTheLastSecond (sampler w))).2 w)
               (addEvent (longRenderOf c endOrigin endNow newId w)
                  (set_framesDrawnInTheLastSecond
                     (sampleFrames endNow
                        (framesDrawnInTheLastSecond (sampler w))).2 w))
        else [])
    ++ [RendersUnsubscribed; ListenForRenders].
Proof.
  rewrite timeoutCallback_eq. cbn zeta.
  destruct ((100 <? endNow - startTime c) && negb (isTaskDirty (sampler w))).
  - cbn [measure trace tell set_pending with_sampler
         set_accumulatedFiberRendersOverTask set_isTaskDirty].
    rewrite since_addEvent, addEvent_trace.
    cbn [trace store set_framesDrawnInTheLastSecond with_sampler].
    by rewrite <- !app_assoc.
  - cbn. by rewrite <- !app_assoc.
Qed.

Lemma store_timeoutCallback c endOrigin endNow newId origin' now' w :
  store (timeoutCallback c endOrigin endNow newId origin' now' w) =
    if (100 <? endNow - startTime c) && negb (isTaskDirty (sampler w))
    then store (addEvent (longRenderOf c endOrigin endNow newId w) w)
    else store w.
Proof.
  rewrite timeoutCallback_eq. cbn zeta.
  destruct ((100 <? endNow - startTime c) && negb (isTaskDirty (sampler w)));
    [|reflexivity].
  cbn [measure store tell set_pending with_sampler
       set_accumulatedFiberRendersOverTask set_isTaskDirty].
  unfold addEvent.
  cbn [store tell set_framesDrawnInTheLastSecond with_sampler].
  by destruct (scanEvents _ _ _).
Qed.

(** C7: the timeout callback leaves [isTaskDirty] false and starts the next
    round of [measure], whatever the flag was; when the flag was set as the
    callback ran, nothing is handed to [addEvent], no listener is called
    and the visible set is as before, however long the round took. *)
Theorem timeoutCallback_dirty c endOrigin endNow newId origin' now' w :
  let w' := timeoutCallback c endOrigin endNow newId origin' now' w in
  isTaskDirty (sampler w') = false
  ∧ pendingFrame (sampler w') =
      Some {| startOrigin := origin'; startTime := now' |}
  ∧ (isTaskDirty (sampler w) = true →
       emitted (since w w') = []
       ∧ listenersCalled (since w w') = []
       ∧ events (store w') = events (store w)).
Proof.
  intros w'. split; [reflexivity|]. split; [reflexivity|].
  intros Hdirty. unfold w'.
  rewrite (since_app _ _ _ (trace_timeoutCallback _ _ _ _ _ _ _)).
  rewrite store_timeoutCallback, Hdirty, andb_false_r. done.
Qed.

(** C8: the timeout callback pushes the current timestamp on the window,
    keeps the entries with [endNow - frameAt <= 1000] and counts them: the
    count is the [fps] of the event it emits, if it emits one.  After the
    frames 0, 200 and 400 the frame at 1100 leaves the window 200, 400,
    1100 and [fps] 3. *)
Theorem timeoutCallback_frame_window c endOrigin endNow newId origin' now' w :
  let frames := framesDrawnInTheLastSecond (sampler w) in
  let window := filter (λ frameAt, endNow - frameAt ≤ 1000)
                       (frames ++ [endNow]) in
  let w' := timeoutCallback c endOrigin endNow newId origin' now' w in
  framesDrawnInTheLastSecond (sampler w') = window
  ∧ sampleFrames endNow frames = (length window, window)
  ∧ (∀ frameAt, frameAt ∈ window ↔
       frameAt ∈ frames ++ [endNow] ∧ ¬ (endNow - frameAt > 1000))
  ∧ endNow ∈ window
  ∧ (∀ ev, ev ∈ emitted (since w w') →
       ∃ s e m, ev = LongRenderPipeline newId s e m
                ∧ metaFps m = length window)
  ∧ fold_left (λ fs t, (sampleFrames t fs).2) [0; 200; 400] [] = [0; 200; 400]
  ∧ sampleFrames 1100 [0; 200; 400] = (3%nat, [200; 400; 1100]).
Proof.
  intros frames window w'.
  split; [|split; [reflexivity|split; [|split; [|split]]]].
  - unfold w'. rewrite timeoutCallback_eq. cbn zeta.
    destruct ((100 <? endNow - startTime c) && negb (isTaskDirty (sampler w)));
      [|reflexivity].
    cbn [measure sampler tell set_pending with_sampler
         set_accumulatedFiberRendersOverTask set_isTaskDirty
         framesDrawnInTheLastSecond].
    unfold addEvent. by destruct (scanEvents _ _ _).
  - intros frameAt. unfold window. rewrite list_elem_of_filter.
    split; intros [? ?]; (split; [done || lia | done || lia]).
  - unfold window. rewrite list_elem_of_filter. split; [lia|].
    apply elem_of_app. right. by apply list_elem_of_singleton.
  - intros ev. unfold w'.
    rewrite (since_app _ _ _ (trace_timeoutCallback _ _ _ _ _ _ _)).
    rewrite emitted_app.
    destruct ((100 <? endNow - startTime c) && negb (isTaskDirty (sampler w))).
    + rewrite emitted_addEvent. simpl.
      intros ->%list_elem_of_singleton. unfold longRenderOf. eauto.
    + simpl. by intros ?%elem_of_nil.
  - split; reflexivity.
Qed.

(** When the flag is clear and the round took more than 100 ms, the
    callback hands exactly one long render to [addEvent]. *)
Lemma timeoutCallback_emits c endOrigin endNow newId origin' now' w :
  isTaskDirty (sampler w) = false → 100 < endNow - startTime c →
  emitted (since w (timeoutCallback c endOrigin endNow newId origin' now' w))
  = [longRenderOf c endOrigin endNow newId w].
Proof.
  intros Hclean Hlong.
  rewrite (since_app _ _ _ (trace_timeoutCallback _ _ _ _ _ _ _)).
  rewrite Hclean, (proj2 (Z.ltb_lt _ _) Hlong). cbn [andb negb].
  by rewrite emitted_app, emitted_addEvent.
Qed.

(** ** What [addEvent] leaves alone *)

Lemma addEvent_frame event w :
  sampler (addEvent event w) = sampler w
  ∧ subscriptions (addEvent event w) = subscriptions w
  ∧ interactionStatus (addEvent event w) = interactionStatus w
  ∧ channels (addEvent event w) = channels w
  ∧ interactionStore (addEvent event w) = interactionStore w.
Proof. unfold addEvent. by destruct (scanEvents _ _ _). Qed.

Lemma channels_addEvent event w : channels (addEvent event w) = channels w.
Proof. apply addEvent_frame. Qed.

Lemma interactionStatus_addEvent event w :
  interactionStatus (addEvent event w) = interactionStatus w.
Proof. apply addEvent_frame. Qed.

(** ** The orchestrator *)

Section OrchestratorFacts.

Variable MAX_CHANNEL_SIZE : nat.
Variable MAX_INTERACTION_BATCH : nat.

Lemma onComplete_eq name fi event newId now origin w :
  onComplete MAX_CHANNEL_SIZE name fi event newId now origin w =
    let w2 :=
      tell [StopListeningForRenders]
        (addEvent (interactionOf fi event newId now origin) w) in
    if negb (length (items (getChannelState MAX_CHANNEL_SIZE "recording" w))
             =? 0)%nat
    then updateChannelState MAX_CHANNEL_SIZE "recording"
           (λ _, newBoundedArray MAX_CHANNEL_SIZE) w2
    else w2.
Proof.
  unfold onComplete, getChannelState. by rewrite channels_addEvent.
Qed.

Lemma trace_onComplete name fi event newId now origin w :
  trace (onComplete MAX_CHANNEL_SIZE name fi event newId now origin w) =
    trace w
    ++ since w (addEvent (interactionOf fi event newId now origin) w)
    ++ [StopListeningForRenders].
Proof.
  rewrite onComplete_eq. cbn zeta.
  assert (H : ∀ w2 : World,
            trace (if negb (length (items (getChannelState MAX_CHANNEL_SIZE
                                             "recording" w)) =? 0)%nat
                   then updateChannelState MAX_CHANNEL_SIZE "recording"
                          (λ _, newBoundedArray MAX_CHANNEL_SIZE) w2
                   else w2) = trace w2).
  { intros w2. by destruct (negb _). }
  rewrite H, trace_tell, since_addEvent, addEvent_trace.
  by rewrite <- !app_assoc.
Qed.

Lemma store_onComplete name fi event newId now origin w :
  store (onComplete MAX_CHANNEL_SIZE name fi event newId now origin w) =
    store (addEvent (interactionOf fi event newId now origin) w).
Proof. rewrite onComplete_eq. cbn zeta. by destruct (negb _). Qed.

Lemma interactionStatus_onComplete name fi event newId now origin w :
  interactionStatus
    (onComplete MAX_CHANNEL_SIZE name fi event newId now origin w) =
  interactionStatus w.
Proof.
  rewrite onComplete_eq. cbn zeta.
  destruct (negb _); cbn; apply interactionStatus_addEvent.
Qed.

End OrchestratorFacts.

(** C5: when the [recording] channel holds an entry as [onComplete] runs,
    the channel is afterwards an empty buffer of capacity
    [MAX_CHANNEL_SIZE], the capacity the registry gave it, and [onComplete]
    has handed one event, an interaction, to [addEvent]. *)
Theorem onComplete_resets_recording
    MAX_CHANNEL_SIZE name fi event newId now origin w :
  items (getChannelState MAX_CHANNEL_SIZE "recording" w) ≠ [] →
  capacity (getChannelState MAX_CHANNEL_SIZE "recording" w)
    = MAX_CHANNEL_SIZE →
  let w' := onComplete MAX_CHANNEL_SIZE name fi event newId now origin w in
  items (getChannelState MAX_CHANNEL_SIZE "recording" w') = []
  ∧ capacity (getChannelState MAX_CHANNEL_SIZE "recording" w')
    = capacity (getChannelState MAX_CHANNEL_SIZE "recording" w)
  ∧ channels w' !! "recording" = Some (newBoundedArray MAX_CHANNEL_SIZE)
  ∧ (∀ name', name' ≠ "recording" → channels w' !! name' = channels w !! name')
  ∧ ∃ ev, emitted (since w w') = [ev] ∧ kind ev = interaction.
Proof.
  intros Hitems Hcap w'.
  assert (Hch : channels w' =
                <["recording" := newBoundedArray MAX_CHANNEL_SIZE]> (channels w)).
  { unfold w'. rewrite onComplete_eq. cbn zeta.
    destruct (items (getChannelState MAX_CHANNEL_SIZE "recording" w));
      [done|].
    cbn. by rewrite channels_addEvent. }
  assert (Hget : getChannelState MAX_CHANNEL_SIZE "recording" w' =
                 newBoundedArray MAX_CHANNEL_SIZE).
  { unfold getChannelState. by rewrite Hch, lookup_insert_eq. }
  split; [by rewrite Hget|]. split; [by rewrite Hget, Hcap|].
  split; [by rewrite Hch, lookup_insert_eq|].
  split; [intros name' Hne; by rewrite Hch, lookup_insert_ne|].
  exists (interactionOf fi event newId now origin). split; [|done].
  unfold w'. rewrite (since_app _ _ _ (trace_onComplete _ _ _ _ _ _ _ _)).
  by rewrite emitted_app, emitted_addEvent.
Qed.

(** ** Worlds the module reaches *)

Lemma timeoutCallback_frame c endOrigin endNow newId origin' now' w :
  let w' := timeoutCallback c endOrigin endNow newId origin' now' w in
  subscriptions w' = subscriptions w
  ∧ interactionStatus w' = interactionStatus w
  ∧ channels w' = channels w
  ∧ interactionStore w' = interactionStore w.
Proof.
  intros w'. unfold w'. rewrite timeoutCallback_eq. cbn zeta.
  destruct ((100 <? endNow - startTime c) && negb (isTaskDirty (sampler w)));
    [|done].
  cbn [measure tell set_pending with_sampler set_isTaskDirty
       set_accumulatedFiberRendersOverTask
       subscriptions interactionStatus channels interactionStore].
  destruct (addEvent_frame (longRenderOf c endOrigin endNow newId w)
              (set_framesDrawnInTheLastSecond
                 (sampleFrames endNow
                    (framesDrawnInTheLastSecond (sampler w))).2 w))
    as (_ & -> & -> & -> & ->).
  done.
Qed.

Section Reachable.

Variable MAX_CHANNEL_SIZE : nat.
Variable MAX_INTERACTION_BATCH : nat.

Local Abbreviation channelsSized := (channelsSized MAX_CHANNEL_SIZE).
Local Abbreviation step := (step MAX_CHANNEL_SIZE MAX_INTERACTION_BATCH).
Local Abbreviation run := (run MAX_CHANNEL_SIZE MAX_INTERACTION_BATCH).

Lemma run_app w actions1 actions2 :
  run w (actions1 ++ actions2) = run (run w actions1) actions2.
Proof. apply fold_left_app. Qed.

(** No action writes [interactionStatus]. *)
Lemma interactionStatus_step w a :
  interactionStatus (step w a) = interactionStatus w.
Proof.
  destruct a; simpl; try done.
  - by destruct (_ <? _)%nat, visible.
  - by destruct (accumulatedFiberRendersOverTask _).
  - unfold fireFrame. by destruct (pendingFrame _).
  - unfold fireTimeout. destruct (pendingTimeout _); [|done].
    by rewrite (proj1 (proj2 (timeoutCallback_frame _ _ _ _ _ _ _))).
  - destruct (timingSubscribed _ _); [|done].
    apply interactionStatus_onComplete.
  - by destruct (performanceEntryInteractions _).
  - by destruct (performancePublisher _).
Qed.

Lemma interactionStatus_run w actions :
  interactionStatus (run w actions) = interactionStatus w.
Proof.
  revert w. induction actions as [|a actions IH]; intros w; [done|].
  simpl. rewrite IH. apply interactionStatus_step.
Qed.

(** The listeners stay a set. *)
Lemma step_NoDup w a :
  NoDup (listeners (store w)) → NoDup (listeners (store (step w a))).
Proof.
  intros Hset. destruct a; simpl; try done.
  - by apply addListener_NoDup.
  - by apply unsubscribe_NoDup.
  - by destruct (_ <? _)%nat, visible.
  - by destruct (accumulatedFiberRendersOverTask _).
  - unfold fireFrame. by destruct (pendingFrame _).
  - unfold fireTimeout. destruct (pendingTimeout _); [|done].
    rewrite store_timeoutCallback.
    destruct (_ && _); [by rewrite addEvent_listeners|done].
  - destruct (timingSubscribed _ _); [|done].
    by rewrite store_onComplete, addEvent_listeners.
  - by destruct (performanceEntryInteractions _).
  - by destruct (performancePublisher _).
Qed.

Lemma run_NoDup w actions :
  NoDup (listeners (store w)) → NoDup (listeners (store (run w actions))).
Proof.
  revert w. induction actions as [|a actions IH]; intros w Hset; [done|].
  simpl. by apply IH, step_NoDup.
Qed.

Lemma getChannelState_sized name w :
  channelsSized w →
  capacity (getChannelState MAX_CHANNEL_SIZE name w) = MAX_CHANNEL_SIZE.
Proof.
  intros Hsized. unfold getChannelState.
  destruct (channels w !! name) as [b|] eqn:E; [|done]. by eapply Hsized.
Qed.

Lemma step_channelsSized w a : channelsSized w → channelsSized (step w a).
Proof.
  intros Hsized. destruct a; simpl; try done.
  - by destruct (_ <? _)%nat, visible.
  - by destruct (accumulatedFiberRendersOverTask _).
  - unfold fireFrame. by destruct (pendingFrame _).
  - unfold fireTimeout. destruct (pendingTimeout _); [|done].
    unfold channelsSized.
    by rewrite (proj1 (proj2 (proj2 (timeoutCallback_frame _ _ _ _ _ _ _)))).
  - destruct (timingSubscribed _ _); [|done].
    rewrite onComplete_eq. cbn zeta. unfold channelsSized.
    destruct (negb _); cbn; rewrite channels_addEvent; [|done].
    intros name b. rewrite lookup_insert. case_decide; [|by apply Hsized].
    by intros [= <-].
  - by destruct (performanceEntryInteractions _).
  - destruct (performancePublisher _); [|done].
    unfold channelsSized. cbn. intros name' b. rewrite lookup_insert.
    case_decide; [|by apply Hsized].
    intros [= <-]. cbn. by apply getChannelState_sized.
Qed.

Lemma run_channelsSized w actions :
  channelsSized w → channelsSized (run w actions).
Proof.
  revert w. induction actions as [|a actions IH]; intros w Hsized; [done|].
  simpl. by apply IH, step_channelsSized.
Qed.

(** Line 233 keeps every interaction out of the visible set. *)
Lemma addEvent_no_interaction event w :
  existsb isInteraction (events (store w)) = false →
  existsb isInteraction (events (store (addEvent event w))) = false.
Proof.
  intros Hnone. rewrite addEvent_events.
  by destruct (existsb isInteraction (events (store w) ++ [event])) eqn:E.
Qed.

Lemma step_no_interaction w a :
  existsb isInteraction (events (store w)) = false →
  existsb isInteraction (events (store (step w a))) = false.
Proof.
  intros Hnone. destruct a; simpl; try done.
  - by destruct (_ <? _)%nat, visible.
  - by destruct (accumulatedFiberRendersOverTask _).
  - unfold fireFrame. by destruct (pendingFrame _).
  - unfold fireTimeout. destruct (pendingTimeout _); [|done].
    rewrite store_timeoutCallback.
    destruct (_ && _); [by apply addEvent_no_interaction|done].
  - destruct (timingSubscribed _ _); [|done].
    rewrite store_onComplete. by apply addEvent_no_interaction.
  - by destruct (performanceEntryInteractions _).
  - by destruct (performancePublisher _).
Qed.

Lemma run_no_interaction w actions :
  existsb isInteraction (events (store w)) = false →
  existsb isInteraction (events (store (run w actions))) = false.
Proof.
  revert w. induction actions as [|a actions IH]; intros w Hnone; [done|].
  simpl. by apply IH, step_no_interaction.
Qed.

End Reachable.

(** C9, as the code has it: [interactionStatus] starts as [no-interaction]
    and nothing in this module writes it.  No action changes it, neither
    [onComplete] at the end of a detailed timing nor the teardown, so it is
    [no-interaction] in every world the module reaches. *)
Theorem interactionStatus_never_written MAX_CHANNEL_SIZE MAX_INTERACTION_BATCH :
  interactionStatus (initialWorld MAX_INTERACTION_BATCH) = no_interaction
  ∧ (∀ origin now w,
       interactionStatus (startTimingTracking origin now w)
       = interactionStatus w)
  ∧ (∀ name fi event newId now origin w,
       interactionStatus
         (onComplete MAX_CHANNEL_SIZE name fi event newId now origin w)
       = interactionStatus w)
  ∧ (∀ w a,
       interactionStatus (step MAX_CHANNEL_SIZE MAX_INTERACTION_BATCH w a)
       = interactionStatus w)
  ∧ (∀ origin now actions,
       interactionStatus
         (run MAX_CHANNEL_SIZE MAX_INTERACTION_BATCH
            (startTimingTracking origin now
               (initialWorld MAX_INTERACTION_BATCH)) actions)
       = no_interaction).
Proof.
  split; [done|]. split; [done|].
  split; [intros; apply interactionStatus_onComplete|].
  split; [intros; apply interactionStatus_step|].
  intros origin now actions. by rewrite interactionStatus_run.
Qed.

(** Every world the module reaches keeps its listeners a set and its
    channel buffers at [MAX_CHANNEL_SIZE], and shows no interaction. *)
Lemma reached_invariants MAX_CHANNEL_SIZE MAX_INTERACTION_BATCH
    origin now actions :
  let w := run MAX_CHANNEL_SIZE MAX_INTERACTION_BATCH
             (startTimingTracking origin now
                (initialWorld MAX_INTERACTION_BATCH)) actions in
  NoDup (listeners (store w))
  ∧ channelsSized MAX_CHANNEL_SIZE w
  ∧ existsb isInteraction (events (store w)) = false.
Proof.
  split; [|split].
  - apply run_NoDup. apply NoDup_nil_2.
  - apply run_channelsSized. intros name b. cbn. by rewrite lookup_empty.
  - by apply run_no_interaction.
Qed.

(** ** The teardown *)

(** C3 (the code departs from it): the teardown returned by
    [startTimingTracking] leaves the sampler as it is, pending callback
    included, and the visibility handler installed.  After two calls of the
    teardown the next round of the sampler, 150 ms long, still hands a long
    render to [addEvent] and the store commits it. *)
Theorem stopTimingTracking_leaves_sampler :
  (∀ w, sampler (stopTimingTracking w) = sampler w
        ∧ visibilityListeners (subscriptions (stopTimingTracking w))
          = visibilityListeners (subscriptions w)
        ∧ stopTimingTracking (stopTimingTracking w) = stopTimingTracking w)
  ∧ let w1 := run 50 25 startedWorld [CallStop; CallStop] in
    let w2 := run 50 25 w1 [AnimationFrame; TimerFired 0 150 "L2" 0 150] in
    let L2 := LongRenderPipeline "L2" 0 150
                {| metaLatency := 150; metaFiberRenders := ∅; metaFps := 1 |} in
    pendingFrame (sampler w1) = Some {| startOrigin := 0; startTime := 0 |}
    ∧ emitted (since w1 w2) = [L2]
    ∧ events (store w2) = [L2].
Proof.
  split; [done|]. cbv zeta. split; [reflexivity|].
  split; vm_compute; reflexivity.
Qed.

(** ** The theorems at sample values *)

Lemma addEvent_long_render_then_interaction_witness :
  events (store (addEvent I1 (addEvent L1 (initialWorld 25)))) = [L1]
  ∧ L1 ∈ events (store (addEvent I1 (addEvent L1 (initialWorld 25))))
  ∧ I1 ∉ events (store (addEvent I1 (addEvent L1 (initialWorld 25)))).
Proof.
  apply (addEvent_long_render_then_interaction (initialWorld 25)
           "L1" sampleLongRenderMeta "I1"
           {| metaInteraction := sampleFinalInteraction;
              metaKind := entryKind sampleEntry |}).
  reflexivity.
Defined.

Lemma addEvents_keeps_interactions_witness :
  let w := with_store {| events := [I1]; listeners := [] |} (initialWorld 25) in
  (kind I1 = interaction → I1 ∈ events (store (addEvents [L1] w)))
  ∧ (I1 ∉ events (store (addEvents [L1] w)) → kind I1 = long_render).
Proof.
  apply (addEvents_keeps_interactions
           (with_store {| events := [I1]; listeners := [] |} (initialWorld 25))
           [L1] I1).
  simpl. constructor.
Defined.

Lemma addEvent_calls_listeners_first_witness :
  let w := addListener 7%nat (initialWorld 25) in
  ∃ commit,
    since w (addEvent L1 w) =
      AddEventCalled L1
      :: map (λ l, ListenerCalled l L1) (listeners (store w)) ++ commit
    ∧ (commit = [] ∧ events (store (addEvent L1 w)) = events (store w)
       ∨ commit = [StoreSet (events (store (addEvent L1 w)))])
    ∧ ∀ l, count_occ Nat.eq_dec (listenersCalled (since w (addEvent L1 w))) l =
           if bool_decide (l ∈ listeners (store w)) then 1%nat else 0%nat.
Proof.
  apply (addEvent_calls_listeners_first L1 (addListener 7%nat (initialWorld 25))).
  simpl. apply NoDup_singleton.
Defined.

Lemma addListener_twice_unsubscribe_twice_witness :
  let w1 := addListener 7%nat (initialWorld 25) in
  let w2 := addListener 7%nat w1 in
  w2 = w1
  ∧ count_occ Nat.eq_dec (listeners (store w2)) 7%nat = 1%nat
  ∧ (∀ event,
       count_occ Nat.eq_dec
         (listenersCalled (since w2 (addEvent event w2))) 7%nat = 1%nat)
  ∧ (7%nat ∉ listeners (store (unsubscribe 7%nat w2)))
  ∧ (∀ l', l' ≠ 7%nat →
       (l' ∈ listeners (store (unsubscribe 7%nat w2)) ↔
        l' ∈ listeners (store (initialWorld 25))))
  ∧ unsubscribe 7%nat (unsubscribe 7%nat w2) = unsubscribe 7%nat w2.
Proof.
  apply (addListener_twice_unsubscribe_twice 7%nat (initialWorld 25)).
  simpl. apply NoDup_nil_2.
Defined.

Lemma timeoutCallback_dirty_witness :
  let w := run 50 25 startedWorld [VisibilityChange false; AnimationFrame] in
  let w' := timeoutCallback {| startOrigin := 0; startTime := 0 |}
              0 150 "L2" 0 150 w in
  isTaskDirty (sampler w) = true
  ∧ isTaskDirty (sampler w') = false
  ∧ emitted (since w w') = []
  ∧ events (store w') = events (store w).
Proof.
  pose proof (timeoutCallback_dirty {| startOrigin := 0; startTime := 0 |}
                0 150 "L2" 0 150
                (run 50 25 startedWorld [VisibilityChange false; AnimationFrame]))
    as (Hclear & _ & Hdirty).
  destruct (Hdirty eq_refl) as (Hnone & _ & Hsame).
  split; [reflexivity|]. split; [exact Hclear|]. split; [exact Hnone|exact Hsame].
Defined.

Lemma onComplete_resets_recording_witness :
  let w := run 50 25 startedWorld [Publish "recording" sampleEntry] in
  let w' := onComplete 50 "pointer" sampleFinalInteraction sampleEntry
              "I1" 300 0 w in
  items (getChannelState 50 "recording" w) = [sampleEntry]
  ∧ items (getChannelState 50 "recording" w') = []
  ∧ capacity (getChannelState 50 "recording" w') = 50%nat
  ∧ emitted (since w w') = [I1].
Proof.
  pose proof (onComplete_resets_recording 50 "pointer" sampleFinalInteraction
                sampleEntry "I1" 300 0
                (run 50 25 startedWorld [Publish "recording" sampleEntry]))
    as H.
  destruct H as (Hitems & Hcap & _ & _ & _).
  - vm_compute. discriminate.
  - vm_compute. reflexivity.
  - split; [vm_compute; reflexivity|]. split; [exact Hitems|].
    split; [rewrite Hcap; vm_compute; reflexivity|].
    vm_compute. reflexivity.
Defined.

(** C9 as stated fails: a detailed timing that resolves while the status is
    [started] leaves it [started], neither [completed] nor reset, though
    [onComplete] has run and handed its interaction to the store; and from
    the module as started, a resolved timing leaves the status
    [no-interaction] without its having been [started] or [completed]. *)
Lemma interactionStatus_lifecycle_counterexample :
  let w := worldWithStatus (started 100) startedWorld in
  let w' := run 50 25 w
              [DetailedTimingComplete pointer sampleFinalInteraction
                 sampleEntry "I1" 300 0] in
  interactionStatus w = started 100
  ∧ emitted (since w w') = [I1]
  ∧ interactionStatus w' = started 100
  ∧ (∀ endedAt, interactionStatus w' ≠ completed 100 endedAt)
  ∧ interactionStatus w' ≠ no_interaction
  ∧ interactionStatus
      (run 50 25 startedWorld
         [DetailedTimingComplete pointer sampleFinalInteraction
            sampleEntry "I1" 300 0]) = no_interaction.
Proof.
  cbv zeta. split; [reflexivity|]. split; [vm_compute; reflexivity|].
  assert (H : interactionStatus
                (run 50 25 (worldWithStatus (started 100) startedWorld)
                   [DetailedTimingComplete pointer sampleFinalInteraction
                      sampleEntry "I1" 300 0]) = started 100)
    by (vm_compute; reflexivity).
  rewrite H. split; [reflexivity|]. split; [discriminate|].
  split; [discriminate|]. vm_compute. reflexivity.
Qed.

(** * Further properties of the code *)

(** ** The visible set *)

Lemma existsb_isInteraction_snoc evs i s e m :
  existsb isInteraction (evs ++ [InteractionEvent i s e m]) = true.
Proof. rewrite existsb_app. simpl. apply orb_true_r. Qed.

(** X1: [addEvent] with an interaction calls the listeners and stops there:
    the visible set is as before and the store's [set] is not called. *)
Theorem addEvent_interaction_not_committed w i s e m :
  let ev := InteractionEvent i s e m in
  events (store (addEvent ev w)) = events (store w)
  ∧ since w (addEvent ev w) =
      AddEventCalled ev :: map (λ l, ListenerCalled l ev) (listeners (store w)).
Proof.
  cbv zeta. split.
  - by rewrite addEvent_events, existsb_isInteraction_snoc.
  - rewrite since_addEvent, existsb_isInteraction_snoc. by rewrite app_nil_r.
Qed.

Lemma existsb_isInteraction_elem x evs :
  x ∈ evs → kind x = interaction → existsb isInteraction evs = true.
Proof.
  intros Hx Hk. apply existsb_exists. exists x.
  split; [by apply list_elem_of_In|]. unfold isInteraction. by rewrite Hk.
Qed.

Lemma addEvent_frozen x event w :
  x ∈ events (store w) → kind x = interaction →
  events (store (addEvent event w)) = events (store w).
Proof.
  intros Hx Hk. rewrite addEvent_events, existsb_app.
  by rewrite (existsb_isInteraction_elem x).
Qed.

(** X2: a visible set that holds an interaction is frozen: no sequence of
    [addEvent] calls, with events of either kind, changes it. *)
Theorem addEvents_frozen_by_interaction x evs w :
  x ∈ events (store w) → kind x = interaction →
  events (store (addEvents evs w)) = events (store w).
Proof.
  intros Hx Hk.
  enough (H : ∀ w', events (store w') = events (store w) →
                    events (store (addEvents evs w')) = events (store w))
    by by apply H.
  induction evs as [|ev evs IH]; intros w' Hw'; [done|].
  simpl. apply IH. rewrite <- Hw'. apply (addEvent_frozen x); [|done].
  by rewrite Hw'.
Qed.

Lemma addEvents_keeps_interactions_free evs w :
  existsb isInteraction (events (store w)) = false →
  events (store (addEvents evs w)) =
    events (store w) ++ List.filter (λ ev, negb (isInteraction ev)) evs.
Proof.
  revert w. induction evs as [|ev evs IH]; intros w Hfree.
  - simpl. by rewrite app_nil_r.
  - simpl. rewrite IH by by apply addEvent_no_interaction.
    rewrite addEvent_events, existsb_app, Hfree. simpl.
    destruct (isInteraction ev); simpl; [done|]. by rewrite <- app_assoc.
Qed.

(** X3: on a visible set without an interaction, a sequence of [addEvent]
    calls appends the long renders of the sequence, in order, and drops its
    interactions; no event is removed, whatever the intervals. *)
Theorem addEvents_appends_long_renders evs w :
  existsb isInteraction (events (store w)) = false →
  events (store (addEvents evs w)) =
    events (store w) ++ List.filter (λ ev, negb (isInteraction ev)) evs.
Proof. apply addEvents_keeps_interactions_free. Qed.

(** X4: the loop of lines 232-237 either returns from [addEvent] or ends
    with an empty [toRemove]: the filter of line 239 never drops an
    event. *)
Theorem scanEvents_marks_nothing (evs : list SlowdownEvent) :
  scanEvents evs evs ∅ =
    if existsb isInteraction evs then None else Some ∅.
Proof.
  destruct (existsb isInteraction evs) eqn:E.
  - by apply scanEvents_interaction.
  - by apply scanEvents_long_renders.
Qed.

(** X5: after [clear] the visible set is the long renders handed to
    [addEvent] since, in order; [clear] calls no listener and keeps them
    registered. *)
Theorem clear_then_addEvents evs w :
  events (store (clear w)) = []
  ∧ listeners (store (clear w)) = listeners (store w)
  ∧ listenersCalled (since w (clear w)) = []
  ∧ events (store (addEvents evs (clear w))) =
      List.filter (λ ev, negb (isInteraction ev)) evs.
Proof.
  split; [done|]. split; [done|]. split.
  - by rewrite (since_app w (clear w) [StoreSet []]).
  - by rewrite addEvents_keeps_interactions_free.
Qed.

(** ** The boundary checks *)

(** X6: the boundary checks report every canonical overlap, for any four
    numbers, well-formed intervals or not. *)
Theorem boundaryChecks_complete (s1 e1 s2 e2 : Z) :
  s1 ≤ e2 → s2 ≤ e1 → boundaryChecks s1 e1 s2 e2 = true.
Proof.
  intros H1 H2. unfold boundaryChecks. rewrite !Z.geb_leb.
  destruct (s1 <=? s2) eqn:A, (e1 <=? e2) eqn:B, (s2 <=? e1) eqn:C,
           (s2 <=? s1) eqn:D, (s1 <=? e2) eqn:E, (e2 <=? e1) eqn:F;
    simpl; try reflexivity; exfalso;
    rewrite ?Z.leb_le, ?Z.leb_gt in *; lia.
Qed.

Lemma boundaryChecks_sound (s1 e1 s2 e2 : Z) :
  s1 ≤ e1 → s2 ≤ e2 →
  boundaryChecks s1 e1 s2 e2 = true → s1 ≤ e2 ∧ s2 ≤ e1.
Proof.
  intros H1 H2. unfold boundaryChecks. rewrite !Z.geb_leb.
  destruct (s1 <=? s2) eqn:A, (e1 <=? e2) eqn:B, (s2 <=? e1) eqn:C,
           (s2 <=? s1) eqn:D, (e2 <=? s1) eqn:E, (e2 <=? e1) eqn:F,
           (s1 <=? e2) eqn:G;
    simpl; try discriminate; intros _;
    rewrite ?Z.leb_le, ?Z.leb_gt in *; lia.
Qed.

(** X7: for well-formed intervals the boundary checks do not depend on
    which interval is the long render's. *)
Theorem boundaryChecks_symmetric (s1 e1 s2 e2 : Z) :
  s1 ≤ e1 → s2 ≤ e2 →
  boundaryChecks s1 e1 s2 e2 = boundaryChecks s2 e2 s1 e1.
Proof.
  intros H1 H2.
  destruct (boundaryChecks s1 e1 s2 e2) eqn:E12.
  - apply boundaryChecks_sound in E12 as [? ?]; [|done..].
    symmetry. by apply boundaryChecks_complete.
  - destruct (boundaryChecks s2 e2 s1 e1) eqn:E21; [|done].
    apply boundaryChecks_sound in E21 as [? ?]; [|done..].
    rewrite boundaryChecks_complete in E12; done.
Qed.

(** ** Listeners over a sequence of events *)

Lemma addEvents_listeners evs w :
  listeners (store (addEvents evs w)) = listeners (store w).
Proof.
  revert w. induction evs as [|ev evs IH]; intros w; [done|].
  simpl. by rewrite IH, addEvent_listeners.
Qed.

(** The trace only grows, and each event calls the listeners in turn. *)
Lemma addEvents_trace evs w :
  ∃ d, trace (addEvents evs w) = trace w ++ d
       ∧ listenersCalled d = concat (map (λ _, listeners (store w)) evs)
       ∧ emitted d = evs.
Proof.
  revert w. induction evs as [|ev evs IH]; intros w.
  - exists []. by rewrite app_nil_r.
  - destruct (IH (addEvent ev w)) as (d & Hd & Hcalled & Hemitted).
    exists (since w (addEvent ev w) ++ d). simpl. split; [|split].
    + rewrite Hd, since_addEvent, addEvent_trace. by rewrite <- !app_assoc.
    + rewrite listenersCalled_app, listenersCalled_addEvent, Hcalled.
      by rewrite addEvent_listeners.
    + by rewrite emitted_app, emitted_addEvent, Hemitted.
Qed.

Lemma count_occ_concat_const {A} (evs : list A) (ls : list Listener) l :
  count_occ Nat.eq_dec (concat (map (λ _, ls) evs)) l
  = (length evs * count_occ Nat.eq_dec ls l)%nat.
Proof.
  induction evs as [|ev evs IH]; [done|].
  simpl. by rewrite count_occ_app, IH.
Qed.

Lemma listenersCalled_addEvents_count evs w l :
  count_occ Nat.eq_dec (listenersCalled (since w (addEvents evs w))) l
  = (length evs * count_occ Nat.eq_dec (listeners (store w)) l)%nat.
Proof.
  destruct (addEvents_trace evs w) as (d & Hd & Hcalled & _).
  rewrite (since_app _ _ _ Hd), Hcalled. apply count_occ_concat_const.
Qed.

(** X8: over any sequence of [addEvent] calls a registered listener is
    called once per event, committed or not, and a function that is not
    registered is never called. *)
Theorem addEvents_calls_each_listener evs w l :
  NoDup (listeners (store w)) →
  count_occ Nat.eq_dec (listenersCalled (since w (addEvents evs w))) l
  = if bool_decide (l ∈ listeners (store w)) then length evs else 0%nat.
Proof.
  intros Hset. rewrite listenersCalled_addEvents_count, count_occ_set by done.
  case_bool_decide; lia.
Qed.

(** X9: once unsubscribed, a listener is not called by any later
    [addEvent], however often it had been added before. *)
Theorem unsubscribe_stops_calls evs w l :
  count_occ Nat.eq_dec
    (listenersCalled
       (since (unsubscribe l w) (addEvents evs (unsubscribe l w)))) l
  = 0%nat.
Proof.
  rewrite listenersCalled_addEvents_count.
  rewrite (proj1 (count_occ_not_In Nat.eq_dec
                    (listeners (store (unsubscribe l w))) l)); [lia|].
  rewrite <- list_elem_of_In. simpl. rewrite list_elem_of_filter. tauto.
Qed.

(** ** The listener arrays *)

Lemma filter_ne_app (l : Listener) (ls : list Listener) :
  l ∉ ls → filter (λ l', l' ≠ l) (ls ++ [l]) = ls.
Proof.
  intros Hl. rewrite filter_app, filter_cons_False, filter_nil, app_nil_r
    by (intros H; by apply H).
  induction ls as [|a ls IH]; [done|].
  apply not_elem_of_cons in Hl as [Hne Hl].
  rewrite filter_cons_True by done. by rewrite IH.
Qed.

Lemma count_occ_filter_ne (cb l : Listener) (ls : list Listener) :
  l ≠ cb →
  count_occ Nat.eq_dec (filter (λ l', l' ≠ cb) ls) l
  = count_occ Nat.eq_dec ls l.
Proof.
  intros Hne. induction ls as [|a ls IH]; [done|].
  destruct (decide (a = cb)) as [->|Hacb].
  - rewrite filter_cons_False by (intros H; by apply H).
    rewrite IH. by rewrite count_occ_cons_neq.
  - rewrite filter_cons_True by done.
    destruct (decide (a = l)) as [->|Hal].
    + by rewrite !count_occ_cons_eq, IH.
    + by rewrite !count_occ_cons_neq, IH.
Qed.

(** X10: [profileListeners] is an array: a function registered twice is
    held twice, and one call of either unsubscribe function takes every
    copy off while the other listeners keep their order; unsubscribing a
    function that was not held before restores the array, and a second
    call changes nothing. *)
Theorem listenForProfile_array (listener : Listener)
    (profileListeners : list Listener) :
  count_occ Nat.eq_dec
    (listenForProfile listener (listenForProfile listener profileListeners))
    listener
  = S (S (count_occ Nat.eq_dec profileListeners listener))
  ∧ (listener ∉ stopListeningForProfile listener
                  (listenForProfile listener
                     (listenForProfile listener profileListeners)))
  ∧ stopListeningForProfile listener
      (listenForProfile listener profileListeners)
    = stopListeningForProfile listener profileListeners
  ∧ (listener ∉ profileListeners →
     stopListeningForProfile listener
       (listenForProfile listener profileListeners) = profileListeners)
  ∧ stopListeningForProfile listener
      (stopListeningForProfile listener profileListeners)
    = stopListeningForProfile listener profileListeners.
Proof.
  unfold listenForProfile, stopListeningForProfile.
  split; [|split; [|split; [|split]]].
  - rewrite !count_occ_app. simpl. destruct (Nat.eq_dec _ _); [lia|done].
  - rewrite list_elem_of_filter. tauto.
  - rewrite filter_app, filter_cons_False, filter_nil, app_nil_r
      by (intros H; by apply H). done.
  - apply filter_ne_app.
  - apply filter_idemp.
Qed.

(** X11: the listeners of [interactionStatusStore] are an array as well:
    unsubscribing takes off every copy of the callback and no other, a
    second call changes nothing, and neither function touches [state]. *)
Theorem interactionStatusStore_listeners (cb : Listener)
    (s : interactionStatusStore.t) :
  let s2 := interactionStatusStore.addListener cb
              (interactionStatusStore.addListener cb s) in
  count_occ Nat.eq_dec (interactionStatusStore.listeners s2) cb
  = S (S (count_occ Nat.eq_dec (interactionStatusStore.listeners s) cb))
  ∧ interactionStatusStore.listeners (interactionStatusStore.unsubscribe cb s2)
    = filter (λ l, l ≠ cb) (interactionStatusStore.listeners s)
  ∧ (∀ l, l ≠ cb →
       count_occ Nat.eq_dec
         (interactionStatusStore.listeners
            (interactionStatusStore.unsubscribe cb s2)) l
       = count_occ Nat.eq_dec (interactionStatusStore.listeners s) l)
  ∧ interactionStatusStore.unsubscribe cb
      (interactionStatusStore.unsubscribe cb s2)
    = interactionStatusStore.unsubscribe cb s2
  ∧ interactionStatusStore.state (interactionStatusStore.unsubscribe cb s2)
    = interactionStatusStore.state s.
Proof.
  cbv zeta. unfold interactionStatusStore.addListener,
    interactionStatusStore.unsubscribe. simpl.
  assert (Hf : filter (λ l, l ≠ cb)
                 ((interactionStatusStore.listeners s ++ [cb]) ++ [cb])
               = filter (λ l, l ≠ cb) (interactionStatusStore.listeners s)).
  { rewrite !filter_app, !filter_cons_False, !filter_nil, !app_nil_r
      by (intros H; by apply H). done. }
  split; [|split; [|split; [|split]]].
  - rewrite !count_occ_app. simpl. destruct (Nat.eq_dec _ _); [lia|done].
  - done.
  - intros l Hne. rewrite Hf. by apply count_occ_filter_ne.
  - f_equal. apply filter_idemp.
  - done.
Qed.

(** ** The debug event store *)

(** X12: the debug store keeps every event in the order of the calls,
    without bound and without a filter: after [n] calls of [addEvent] it
    holds [n] more events, and after [clear] exactly the events added
    since. *)
Theorem debugEventStore_keeps_all {DebugEvent : Type}
    (added events : list DebugEvent) :
  fold_left (λ evs ev, debugEventStore.addEvent ev evs) added events
  = events ++ added
  ∧ length (fold_left (λ evs ev, debugEventStore.addEvent ev evs) added events)
    = (length events + length added)%nat
  ∧ fold_left (λ evs ev, debugEventStore.addEvent ev evs) added
      (debugEventStore.clear events)
    = added.
Proof.
  assert (H : ∀ evs : list DebugEvent,
            fold_left (λ evs ev, debugEventStore.addEvent ev evs) added evs
            = evs ++ added).
  { induction added as [|ev added IH]; intros evs; simpl.
    - by rewrite app_nil_r.
    - rewrite IH. unfold debugEventStore.addEvent. by rewrite <- app_assoc. }
  split; [apply H|]. split; [by rewrite H, length_app|].
  by rewrite H.
Qed.

(** ** Rounds of the sampler *)


Lemma since_timeoutCallback c endOrigin endNow newId origin' now' w :
  emitted (since w (timeoutCallback c endOrigin endNow newId origin' now' w))
  = if (100 <? endNow - startTime c) && negb (isTaskDirty (sampler w))
    then [longRenderOf c endOrigin endNow newId w] else [].
Proof.
  rewrite (since_app _ _ _ (trace_timeoutCallback _ _ _ _ _ _ _)).
  rewrite emitted_app.
  destruct ((100 <? endNow - startTime c) && negb (isTaskDirty (sampler w)));
    [|done].
  by rewrite emitted_addEvent.
Qed.

(** X13: a round of 100 ms or less is not a long render: the timeout
    callback hands nothing to [addEvent] and leaves the visible set, the
    flag being set or not. *)
Theorem timeoutCallback_short_round c endOrigin endNow newId origin' now' w :
  endNow - startTime c ≤ 100 →
  let w' := timeoutCallback c endOrigin endNow newId origin' now' w in
  emitted (since w w') = []
  ∧ listenersCalled (since w w') = []
  ∧ events (store w') = events (store w).
Proof.
  intros Hshort. cbv zeta.
  assert (Hc : (100 <? endNow - startTime c) = false) by by apply Z.ltb_ge.
  rewrite since_timeoutCallback, store_timeoutCallback.
  rewrite (since_app _ _ _ (trace_timeoutCallback _ _ _ _ _ _ _)).
  by rewrite Hc.
Qed.

(** X14: a round of more than 100 ms with the flag clear hands one long
    render to [addEvent]; its interval runs from [startTime + startOrigin]
    to [endOrigin + endNow], its latency is the duration of the round, and
    on a visible set without an interaction it is appended at the end. *)
Theorem timeoutCallback_long_round c endOrigin endNow newId origin' now' w :
  100 < endNow - startTime c → isTaskDirty (sampler w) = false →
  let w' := timeoutCallback c endOrigin endNow newId origin' now' w in
  ∃ m, let ev := LongRenderPipeline newId (startTime c + startOrigin c)
                   (endOrigin + endNow) m in
    emitted (since w w') = [ev]
    ∧ metaLatency m = endNow - startTime c
    ∧ listenersCalled (since w w') = listeners (store w)
    ∧ (existsb isInteraction (events (store w)) = false →
       events (store w') = events (store w) ++ [ev]).
Proof.
  intros Hlong Hclean. cbv zeta.
  assert (Hc : (100 <? endNow - startTime c) = true) by by apply Z.ltb_lt.
  eexists. split; [|split; [|split]].
  - rewrite since_timeoutCallback, Hc, Hclean. reflexivity.
  - reflexivity.
  - rewrite (since_app _ _ _ (trace_timeoutCallback _ _ _ _ _ _ _)).
    rewrite Hc, Hclean. cbn [andb negb].
    rewrite listenersCalled_app, listenersCalled_addEvent.
    cbn. by rewrite app_nil_r.
  - intros Hfree. rewrite store_timeoutCallback, Hc, Hclean. cbn [andb negb].
    rewrite addEvent_events, existsb_app, Hfree. reflexivity.
Qed.


(** ** More on the worlds the module reaches *)



Section ReachableMore.

Variable MAX_CHANNEL_SIZE : nat.
Variable MAX_INTERACTION_BATCH : nat.

Local Abbreviation step := (step MAX_CHANNEL_SIZE MAX_INTERACTION_BATCH).
Local Abbreviation run := (run MAX_CHANNEL_SIZE MAX_INTERACTION_BATCH).
Local Abbreviation onComplete := (onComplete MAX_CHANNEL_SIZE).

Lemma sampler_onComplete name fi event newId now origin w :
  sampler (onComplete name fi event newId now origin w) = sampler w.
Proof.
  rewrite onComplete_eq. cbn zeta.
  destruct (negb _); cbn; apply addEvent_frame.
Qed.

Lemma step_keeps_dirty w a :
  isTaskDirty (sampler w) = true → isTimerFired a = false →
  isTaskDirty (sampler (step w a)) = true.
Proof.
  intros Hdirty Ha. destruct a; simpl; try done.
  - by destruct (_ <? _)%nat, visible.
  - by destruct (accumulatedFiberRendersOverTask _).
  - unfold fireFrame. by destruct (pendingFrame _).
  - destruct (timingSubscribed _ _); [|done]. by rewrite sampler_onComplete.
  - by destruct (performanceEntryInteractions _).
  - by destruct (performancePublisher _).
Qed.

Lemma run_keeps_dirty actions w :
  isTaskDirty (sampler w) = true →
  forallb (λ a, negb (isTimerFired a)) actions = true →
  isTaskDirty (sampler (run w actions)) = true.
Proof.
  revert w. induction actions as [|a actions IH]; intros w Hdirty Hall; [done|].
  simpl in Hall. apply andb_true_iff in Hall as [Ha Hall].
  simpl. apply IH; [|done]. apply step_keeps_dirty; [done|].
  by apply negb_true_iff.
Qed.

(** X16: once set, [isTaskDirty] stays set until a timeout callback of the
    sampler runs: no other action clears it, a page that turns visible
    again included. *)
Theorem isTaskDirty_persists actions w :
  isTaskDirty (sampler w) = true →
  forallb (λ a, negb (isTimerFired a)) actions = true →
  isTaskDirty (sampler (run w actions)) = true.
Proof. apply run_keeps_dirty. Qed.

(** X17: when the page was hidden at some moment of a round, the timeout
    callback that ends the round hands nothing to [addEvent], whatever
    happened in between and however long the round took. *)
Theorem hidden_round_emits_nothing actions w
    endOrigin endNow newId origin' now' :
  (0 < visibilityListeners (subscriptions w))%nat →
  forallb (λ a, negb (isTimerFired a)) actions = true →
  let w1 := run w (VisibilityChange false :: actions) in
  let w2 := step w1 (TimerFired endOrigin endNow newId origin' now') in
  emitted (since w1 w2) = [] ∧ isTaskDirty (sampler w1) = true.
Proof.
  intros Hlistening Hall. cbv zeta.
  assert (Hdirty : isTaskDirty
                     (sampler (run w (VisibilityChange false :: actions)))
                   = true).
  { simpl. apply run_keeps_dirty; [|done].
    by rewrite (proj2 (Nat.ltb_lt _ _) Hlistening). }
  split; [|done].
  set (w1 := run w (VisibilityChange false :: actions)) in *.
  simpl. unfold fireTimeout.
  destruct (pendingTimeout (sampler w1)) as [c|] eqn:Hpending.
  - change (since w1 ?x) with
      (since (set_pending (pendingFrame (sampler w1)) None w1) x).
    rewrite since_timeoutCallback. cbn [sampler set_pending with_sampler
                                         isTaskDirty].
    by rewrite Hdirty, andb_false_r.
  - unfold since. by rewrite drop_all.
Qed.



(** X19: after the cancel function of [startLongPipelineTracking] neither
    an animation frame nor a timeout runs a callback of the sampler: the
    world stays as the cancel left it, and a second cancel changes
    nothing. *)
Theorem cancelLongPipelineTracking_stops_sampler actions w :
  forallb isSamplerAction actions = true →
  run (cancelLongPipelineTracking w) actions = cancelLongPipelineTracking w
  ∧ cancelLongPipelineTracking (cancelLongPipelineTracking w)
    = cancelLongPipelineTracking w
  ∧ pendingCallbacks (cancelLongPipelineTracking w) = 0%nat.
Proof.
  intros Hall. split; [|done].
  induction actions as [|a actions IH]; [done|].
  simpl in Hall. apply andb_true_iff in Hall as [Ha Hall].
  destruct a; try discriminate; simpl; by apply IH.
Qed.

(** X20: [onComplete] never changes the visible set, nor the sampler: its
    interaction goes to the listeners and no further. *)
Theorem onComplete_keeps_visible_set name fi event newId now origin w :
  let w' := onComplete name fi event newId now origin w in
  events (store w') = events (store w)
  ∧ sampler w' = sampler w
  ∧ listenersCalled (since w w') = listeners (store w)
  ∧ emitted (since w w') = [interactionOf fi event newId now origin].
Proof.
  cbv zeta. split; [|split; [|split]].
  - rewrite store_onComplete. unfold interactionOf.
    by rewrite addEvent_events, existsb_isInteraction_snoc.
  - apply sampler_onComplete.
  - rewrite (since_app _ _ _ (trace_onComplete _ _ _ _ _ _ _ _)).
    rewrite listenersCalled_app, listenersCalled_addEvent. cbn.
    by rewrite app_nil_r.
  - rewrite (since_app _ _ _ (trace_onComplete _ _ _ _ _ _ _ _)).
    by rewrite emitted_app, emitted_addEvent.
Qed.

(** X21: every event of the visible set of a reached world is a long
    render. *)
Theorem reached_only_long_renders origin now actions :
  Forall (λ ev, kind ev = long_render)
    (events
       (store
          (run (startTimingTracking origin now
                  (initialWorld MAX_INTERACTION_BATCH)) actions))).
Proof.
  apply Forall_forall. intros ev Hev.
  destruct (kind ev) eqn:Hk; [|done].
  pose proof (run_no_interaction MAX_CHANNEL_SIZE MAX_INTERACTION_BATCH
                (startTimingTracking origin now
                   (initialWorld MAX_INTERACTION_BATCH))
                actions eq_refl) as Hfree.
  by rewrite (existsb_isInteraction_elem ev) in Hfree.
Qed.



End ReachableMore.

(** ** The frame window under a clock that does not go back *)

Lemma nonDecreasing_snoc (ts : list Z) (t : Z) :
  nonDecreasing (ts ++ [t]) → nonDecreasing ts ∧ ∀ t', t' ∈ ts → t' ≤ t.
Proof.
  induction ts as [|a ts IH]; simpl.
  - intros _. split; [done|]. by intros t' ?%elem_of_nil.
  - intros [Ha Hts]. destruct (IH Hts) as [Hsorted Hle]. split.
    + split; [|done]. intros t' Ht'. apply Ha, elem_of_app. by left.
    + intros t' [->|Ht']%elem_of_cons; [|by apply Hle].
      apply Ha, elem_of_app. right. by apply list_elem_of_singleton.
Qed.

Lemma filter_window_earlier (t0 t : Z) (fs : list Z) :
  t0 ≤ t →
  filter (λ frameAt, t - frameAt ≤ 1000)
    (filter (λ frameAt, t0 - frameAt ≤ 1000) fs)
  = filter (λ frameAt, t - frameAt ≤ 1000) fs.
Proof.
  intros Hle. induction fs as [|f fs IH]; [done|].
  destruct (decide (t0 - f ≤ 1000)) as [Hin|Hout].
  - rewrite (filter_cons_True (λ frameAt, t0 - frameAt ≤ 1000)) by done.
    rewrite !filter_cons. by rewrite IH.
  - rewrite (filter_cons_False (λ frameAt, t0 - frameAt ≤ 1000)) by done.
    rewrite IH. rewrite (filter_cons_False (λ frameAt, t - frameAt ≤ 1000));
      [done|lia].
Qed.

(** X23: when the timeout callbacks run at times that do not decrease, the
    window after the last of them holds exactly the times within 1000 ms
    of it, in order: a frame pruned in an earlier round would not count in
    a later one, and [fps] is the number of rounds that ended in the last
    second. *)
Theorem sampleFrames_last_second (ts : list Z) (t : Z) :
  nonDecreasing (ts ++ [t]) →
  let window := fold_left (λ fs t', (sampleFrames t' fs).2) (ts ++ [t]) [] in
  window = filter (λ frameAt, t - frameAt ≤ 1000) (ts ++ [t])
  ∧ (sampleFrames t (fold_left (λ fs t', (sampleFrames t' fs).2) ts [])).1
    = length window.
Proof.
  intros Hsorted. cbv zeta.
  assert (H : fold_left (λ fs t', (sampleFrames t' fs).2) (ts ++ [t]) []
              = filter (λ frameAt, t - frameAt ≤ 1000) (ts ++ [t])).
  { revert t Hsorted. induction ts as [|t0 ts IH] using rev_ind;
      intros t Hsorted; [done|].
    rewrite fold_left_app. cbn [fold_left sampleFrames snd].
    apply nonDecreasing_snoc in Hsorted as [Hsorted Hle].
    rewrite IH by done.
    rewrite (filter_app _ (filter _ (ts ++ [t0])) [t]).
    rewrite filter_window_earlier.
    - by rewrite (filter_app _ (ts ++ [t0]) [t]).
    - apply Hle, elem_of_app. right. by apply list_elem_of_singleton. }
  split; [done|]. by rewrite fold_left_app.
Qed.

(** ** The further properties at sample values *)

Lemma addEvents_frozen_by_interaction_witness :
  events
    (store
       (addEvents [L1; I1]
          (with_store {| events := [I1]; listeners := [] |} (initialWorld 25))))
  = events
      (store
         (with_store {| events := [I1]; listeners := [] |} (initialWorld 25))).
Proof.
  apply (addEvents_frozen_by_interaction I1 [L1; I1]
           (with_store {| events := [I1]; listeners := [] |}
              (initialWorld 25))).
  - simpl. constructor.
  - reflexivity.
Defined.

Lemma addEvents_appends_long_renders_witness :
  events (store (addEvents [L1; I1; L1] (initialWorld 25)))
  = events (store (initialWorld 25))
    ++ List.filter (λ ev, negb (isInteraction ev)) [L1; I1; L1].
Proof.
  apply (addEvents_appends_long_renders [L1; I1; L1] (initialWorld 25)).
  reflexivity.
Defined.

Lemma boundaryChecks_complete_witness : boundaryChecks 0 100 100 200 = true.
Proof. apply (boundaryChecks_complete 0 100 100 200); lia. Defined.

Lemma boundaryChecks_symmetric_witness :
  boundaryChecks 0 500 200 300 = boundaryChecks 200 300 0 500.
Proof. apply (boundaryChecks_symmetric 0 500 200 300); lia. Defined.

Lemma addEvents_calls_each_listener_witness :
  count_occ Nat.eq_dec
    (listenersCalled
       (since (addListener 7%nat (initialWorld 25))
          (addEvents [L1; I1] (addListener 7%nat (initialWorld 25)))))
    7%nat
  = if bool_decide
         (7%nat ∈ listeners (store (addListener 7%nat (initialWorld 25))))
    then length [L1; I1] else 0%nat.
Proof.
  apply (addEvents_calls_each_listener [L1; I1]
           (addListener 7%nat (initialWorld 25)) 7%nat).
  simpl. apply NoDup_singleton.
Defined.

Lemma listenForProfile_array_witness :
  stopListeningForProfile 2%nat (listenForProfile 2%nat [1%nat; 3%nat])
  = [1%nat; 3%nat].
Proof.
  apply (proj1 (proj2 (proj2 (proj2
           (listenForProfile_array 2%nat [1%nat; 3%nat]))))).
  intros [Heq|Hin]%elem_of_cons; [discriminate|].
  apply elem_of_cons in Hin as [Heq|Hin]; [discriminate|].
  by apply elem_of_nil in Hin.
Defined.

Lemma timeoutCallback_short_round_witness :
  emitted
    (since startedWorld
       (timeoutCallback {| startOrigin := 0; startTime := 0 |}
          0 100 "L2" 0 100 startedWorld)) = []
  ∧ listenersCalled
      (since startedWorld
         (timeoutCallback {| startOrigin := 0; startTime := 0 |}
            0 100 "L2" 0 100 startedWorld)) = []
  ∧ events
      (store
         (timeoutCallback {| startOrigin := 0; startTime := 0 |}
            0 100 "L2" 0 100 startedWorld))
    = events (store startedWorld).
Proof.
  apply (timeoutCallback_short_round {| startOrigin := 0; startTime := 0 |}
           0 100 "L2" 0 100 startedWorld).
  simpl. lia.
Defined.

Lemma timeoutCallback_long_round_witness :
  ∃ m,
    emitted
      (since startedWorld
         (timeoutCallback {| startOrigin := 0; startTime := 0 |}
            0 101 "L2" 0 101 startedWorld))
    = [LongRenderPipeline "L2" (0 + 0) (0 + 101) m]
    ∧ metaLatency m = 101 - 0
    ∧ listenersCalled
        (since startedWorld
           (timeoutCallback {| startOrigin := 0; startTime := 0 |}
              0 101 "L2" 0 101 startedWorld))
      = listeners (store startedWorld)
    ∧ (existsb isInteraction (events (store startedWorld)) = false →
       events
         (store
            (timeoutCallback {| startOrigin := 0; startTime := 0 |}
               0 101 "L2" 0 101 startedWorld))
       = events (store startedWorld)
         ++ [LongRenderPipeline "L2" (0 + 0) (0 + 101) m]).
Proof.
  apply (timeoutCallback_long_round {| startOrigin := 0; startTime := 0 |}
           0 101 "L2" 0 101 startedWorld).
  - simpl. lia.
  - reflexivity.
Defined.


Lemma isTaskDirty_persists_witness :
  isTaskDirty
    (sampler
       (run 50 25 (run 50 25 startedWorld [VisibilityChange false])
          [VisibilityChange true; AnimationFrame; CallStop])) = true.
Proof.
  apply (isTaskDirty_persists 50 25
           [VisibilityChange true; AnimationFrame; CallStop]
           (run 50 25 startedWorld [VisibilityChange false]));
    reflexivity.
Defined.

Lemma hidden_round_emits_nothing_witness :
  emitted
    (since
       (run 50 25 startedWorld
          (VisibilityChange false :: [VisibilityChange true; AnimationFrame]))
       (step 50 25
          (run 50 25 startedWorld
             (VisibilityChange false
                :: [VisibilityChange true; AnimationFrame]))
          (TimerFired 0 150 "L2" 0 150))) = []
  ∧ isTaskDirty
      (sampler
         (run 50 25 startedWorld
            (VisibilityChange false
               :: [VisibilityChange true; AnimationFrame]))) = true.
Proof.
  apply (hidden_round_emits_nothing 50 25
           [VisibilityChange true; AnimationFrame] startedWorld
           0 150 "L2" 0 150).
  - simpl. lia.
  - reflexivity.
Defined.

Lemma cancelLongPipelineTracking_stops_sampler_witness :
  run 50 25 (cancelLongPipelineTracking startedWorld)
    [AnimationFrame; TimerFired 0 150 "L2" 0 150]
  = cancelLongPipelineTracking startedWorld
  ∧ cancelLongPipelineTracking (cancelLongPipelineTracking startedWorld)
    = cancelLongPipelineTracking startedWorld
  ∧ pendingCallbacks (cancelLongPipelineTracking startedWorld) = 0%nat.
Proof.
  apply (cancelLongPipelineTracking_stops_sampler 50 25
           [AnimationFrame; TimerFired 0 150 "L2" 0 150] startedWorld).
  reflexivity.
Defined.

Lemma sampleFrames_last_second_witness :
  fold_left (λ fs t', (sampleFrames t' fs).2) ([0; 200; 400] ++ [1100]) []
  = filter (λ frameAt, 1100 - frameAt ≤ 1000) ([0; 200; 400] ++ [1100])
  ∧ (sampleFrames 1100
       (fold_left (λ fs t', (sampleFrames t' fs).2) [0; 200; 400] [])).1
    = length
        (fold_left (λ fs t', (sampleFrames t' fs).2)
           ([0; 200; 400] ++ [1100]) []).
Proof.
  apply (sampleFrames_last_second [0; 200; 400] 1100).
  simpl. repeat split; intros t' Ht';
    repeat (apply elem_of_cons in Ht' as [->|Ht']; [lia|]);
    by apply elem_of_nil in Ht'.
Defined.
